(** * Ethr server: control handshake and data-plane handlers

    A shallow embedding of [server.go].  Goroutines are modelled one run at
    a time over an explicit [World] (the test registry, the heap of [ethrTest]
    records the registry points to, the set of closed connections and a trace
    of the observable calls); what the network and the clock deliver is an
    explicit script handed to each handler. *)

From Stdlib Require Import ZArith Lia Bool.
From Stdlib Require Import SpecFloat.
From stdpp Require Import gmap strings list sorting.

Local Open Scope Z_scope.

(** ** Machine integers *)

Definition wrap32 (z : Z) : Z := z mod 2 ^ 32.
Definition wrap64 (z : Z) : Z := z mod 2 ^ 64.

(** [int64] results: two's complement wrap-around. *)
Definition wrapInt64 (z : Z) : Z := (z + 2 ^ 63) mod 2 ^ 64 - 2 ^ 63.

(** ** Data model *)

(** Modelled from the spec: the declarations of the protocol, test type, test
    identity, test parameter, message and test record types are not in
    [server.go]; their constructors and fields are the ones [server.go]
    names. *)
Inductive EthrProtocol := Tcp | Udp | Http.
Inductive EthrTestType := Bandwidth | Cps | Pps | Latency.

Global Instance EthrProtocol_eq_dec : EqDecision EthrProtocol.
Proof. solve_decision. Defined.
Global Instance EthrTestType_eq_dec : EqDecision EthrTestType.
Proof. solve_decision. Defined.

Global Instance EthrProtocol_countable : Countable EthrProtocol.
Proof.
  refine (inj_countable'
            (fun p => match p with Tcp => 0%nat | Udp => 1%nat | Http => 2%nat end)
            (fun n => match n with 0%nat => Tcp | 1%nat => Udp | _ => Http end) _).
  by intros [].
Defined.

Global Instance EthrTestType_countable : Countable EthrTestType.
Proof.
  refine (inj_countable'
            (fun t => match t with
                      | Bandwidth => 0%nat | Cps => 1%nat | Pps => 2%nat | Latency => 3%nat
                      end)
            (fun n => match n with
                      | 0%nat => Bandwidth | 1%nat => Cps | 2%nat => Pps | _ => Latency
                      end) _).
  by intros [].
Defined.

Record EthrTestId := { Protocol : EthrProtocol; Type_ : EthrTestType }.

(** Modelled from the spec: the test parameter.  [RttCount] is compared with
    a [uint32] loop counter in [runLatencyHandler], so it is an unsigned
    32-bit value held in [Z], and so is [BufferSize]. *)
Record EthrTestParam := {
  TestId : EthrTestId;
  NumThreads : Z;
  BufferSize : Z;
  RttCount : Z
}.

(** Modelled from the spec: the tagged union of control messages.
    [EthrInv] stands for what [recvSessionMsg] hands back when nothing could
    be decoded, a message that is neither [EthrSyn] nor [EthrAck]. *)
Inductive EthrMsg :=
| EthrInv
| EthrSyn (testParam : EthrTestParam)
| EthrAck
| EthrFin (message : string)
| EthrBgn (udpPort : string).

Definition isSyn (m : EthrMsg) : option EthrTestParam :=
  match m with EthrSyn p => Some p | _ => None end.

Definition isAck (m : EthrMsg) : bool :=
  match m with EthrAck => true | _ => false end.

Definition createFinMsg (message : string) : EthrMsg := EthrFin message.
Definition createAckMsg : EthrMsg := EthrAck.

(** A connection: an identity and the two halves of
    [net.SplitHostPort(conn.RemoteAddr().String())]. *)
Record Conn := { connId : nat; remoteHost : string; remotePort : string }.

Definition loc := positive.

(** Modelled from the spec: the [ethrTest] record.  [done] is [true] once
    the channel is closed, [data] is [testResult.data], a [uint64], and
    [remoteAddr] is [session.remoteAddr]. *)
Record ethrTest := {
  remoteAddr : string;
  testParam : EthrTestParam;
  ctrlConn : Conn;
  done : bool;
  isActive : bool;
  data : Z
}.

Definition TestKey : Type := string * EthrProtocol * EthrTestType.

Definition keyOf (server : string) (p : EthrTestParam) : TestKey :=
  (server, Protocol (TestId p), Type_ (TestId p)).

Definition testKey (t : ethrTest) : TestKey := keyOf (remoteAddr t) (testParam t).

Record LatencyResults := {
  avg : Z; min : Z; max : Z;
  p50 : Z; p90 : Z; p95 : Z; p99 : Z; p999 : Z; p9999 : Z
}.

(** What a handler does that another party can observe, in call order. *)
Inductive Event :=
| EvRecv (c : Conn) (m : EthrMsg)
| EvSend (c : Conn) (m : EthrMsg) (ok : bool)
| EvConnClose (c : Conn)
| EvDoneClose (t : loc)
| EvSetActive (t : loc) (b : bool)
| EvPpsSetup (t : loc) (ok : bool)
| EvCtrlRead (c : Conn)
| EvConnRead (c : Conn) (ok : bool)
| EvConnWrite (c : Conn) (ok : bool)
| EvGetTest (k : TestKey) (found : option loc)
| EvBodyRead (ok : bool)
| EvRespWrite (body : string)
| EvRespError (msg : string) (code : Z)
| EvPrintMsg (s : string)
| EvPrintDbg
| EvEmitTestHdr
| EvEmitLatencyResults (addr : string) (proto : string) (r : LatencyResults).

Record World := {
  gSessions : gmap TestKey loc;
  heap : gmap loc ethrTest;
  closed : gset nat;
  trace : list Event
}.

Definition setSessions (f : gmap TestKey loc → gmap TestKey loc) (w : World) : World :=
  {| gSessions := f (gSessions w); heap := heap w; closed := closed w; trace := trace w |}.

Definition setHeap (f : gmap loc ethrTest → gmap loc ethrTest) (w : World) : World :=
  {| gSessions := gSessions w; heap := f (heap w); closed := closed w; trace := trace w |}.

Definition emit (e : Event) (w : World) : World :=
  {| gSessions := gSessions w; heap := heap w; closed := closed w;
     trace := trace w ++ [e] |}.

(** [conn.Close()]. *)
Definition closeConnId (c : Conn) (w : World) : World :=
  emit (EvConnClose c)
    {| gSessions := gSessions w; heap := heap w;
       closed := {[connId c]} ∪ closed w; trace := trace w |}.

Definition withData (d : Z) (t : ethrTest) : ethrTest :=
  {| remoteAddr := remoteAddr t; testParam := testParam t; ctrlConn := ctrlConn t;
     done := done t; isActive := isActive t; data := d |}.

Definition withDone (b : bool) (t : ethrTest) : ethrTest :=
  {| remoteAddr := remoteAddr t; testParam := testParam t; ctrlConn := ctrlConn t;
     done := b; isActive := isActive t; data := data t |}.

Definition withActive (b : bool) (t : ethrTest) : ethrTest :=
  {| remoteAddr := remoteAddr t; testParam := testParam t; ctrlConn := ctrlConn t;
     done := done t; isActive := b; data := data t |}.

(** [atomic.AddUint64(&test.testResult.data, n)]. *)
Definition atomicAddData (t : loc) (n : Z) (w : World) : World :=
  setHeap (alter (fun r => withData (wrap64 (data r + n)) r) t) w.

(** [atomic.SwapUint64(&test.testResult.data, n)]. *)
Definition atomicSwapData (t : loc) (n : Z) (w : World) : World :=
  setHeap (alter (withData n) t) w.

(** ** Test registry *)

(** Modelled from the spec: [newTest], [getTest] and [deleteTest] live in the
    session file, which is not part of [server.go].  The registry maps
    [(remote address, protocol, test type)] to the live test record and
    offers create-if-absent, lookup and delete; a duplicate key is rejected
    and no record is created. *)
Definition newTest (server : string) (conn : Conn) (p : EthrTestParam)
    (w : World) : option loc * World :=
  match gSessions w !! keyOf server p with
  | Some _ => (None, w)
  | None =>
      let t := fresh (dom (heap w)) in
      let r := {| remoteAddr := server; testParam := p; ctrlConn := conn;
                  done := false; isActive := false; data := 0 |} in
      (Some t, setSessions <[keyOf server p := t]> (setHeap <[t := r]> w))
  end.

(** Modelled from the spec: lookup by key, [None] for Go's [nil]. *)
Definition getTest (server : string) (proto : EthrProtocol) (ty : EthrTestType)
    (w : World) : option loc :=
  gSessions w !! (server, proto, ty).

(** Modelled from the spec: the record of [t] is removed from the registry;
    the record itself stays reachable through the pointers handlers hold. *)
Definition deleteTest (t : loc) (w : World) : World :=
  match heap w !! t with
  | Some r => setSessions (delete (testKey r)) w
  | None => w
  end.

(** Modelled from the spec: [gSessionKeys], the registry's list of session
    keys, is not in [server.go]; it is taken to be empty exactly when no test
    is registered. *)
Definition lenSessionKeysPositive (w : World) : bool :=
  bool_decide (gSessions w ≠ ∅).

(** ** Handlers as state transformers that may panic *)

Inductive Panic :=
| NilDereference
| CloseOfClosedChannel
| DivideByZero
| IndexOutOfRange.

Inductive Outcome (A : Type) :=
| Done (a : A) (w : World)
| Panicked (p : Panic) (w : World).
Arguments Done {A} a w.
Arguments Panicked {A} p w.

Definition M (A : Type) : Type := World → Outcome A.

Definition ret {A} (a : A) : M A := fun w => Done a w.

Definition bind {A B} (m : M A) (k : A → M B) : M B :=
  fun w => match m w with
           | Done a w' => k a w'
           | Panicked p w' => Panicked p w'
           end.

Definition panic {A} (p : Panic) : M A := fun w => Panicked p w.

Definition modify (f : World → World) : M unit := fun w => Done tt (f w).

(** [defer d()] around [body]: [d] runs when [body] returns and when it
    panics. *)
Definition deferred {A} (d : World → World) (body : M A) : M A :=
  fun w => match body w with
           | Done a w' => Done a (d w')
           | Panicked p w' => Panicked p (d w')
           end.

Definition finalWorld {A} (o : Outcome A) : World :=
  match o with Done _ w => w | Panicked _ w => w end.

Definition liftState {A} (f : World → A * World) : M A :=
  fun w => let '(a, w') := f w in Done a w'.

Definition getWorld : M World := fun w => Done w w.

Global Instance M_ret : MRet M := @ret.
Global Instance M_bind : MBind M := fun A B k m => bind m k.

(** [protoToString] and [testToString] are defined outside [server.go];
    the handlers take them as given. *)
Class Names := {
  protoToString : EthrProtocol → string;
  testToString : EthrTestType → string
}.

Definition printMsg (s : string) : M unit := modify (emit (EvPrintMsg s)).
Definition printDbg : M unit := modify (emit EvPrintDbg).
Definition emitTestHdr : M unit := modify (emit EvEmitTestHdr).

(** Reading a field through a [*ethrTest]. *)
Definition loadTest (t : loc) : M ethrTest :=
  fun w => match heap w !! t with
           | Some r => Done r w
           | None => Panicked NilDereference w
           end.

Definition lookupTest (server : string) (proto : EthrProtocol) (ty : EthrTestType)
    : M (option loc) :=
  fun w => let r := getTest server proto ty w in
           Done r (emit (EvGetTest (server, proto, ty) r) w).

Definition atomicAdd (t : loc) (n : Z) : M unit := modify (atomicAddData t n).
Definition atomicSwap (t : loc) (n : Z) : M unit := modify (atomicSwapData t n).

(** ** Control channel *)

(** What the peer and the host deliver to one run of [handleRequest]: the
    messages [recvSessionMsg] returns and whether the sends and the UDP
    setup succeed. *)
Record CtrlScript := {
  firstMsg : EthrMsg;
  ppsSetupOk : bool;
  ackSendOk : bool;
  finSendOk : bool;
  reply : EthrMsg
}.

Definition recvSessionMsg (conn : Conn) (m : EthrMsg) : M EthrMsg :=
  modify (emit (EvRecv conn m));; mret m.

(** Returns [true] when the error is [nil]. *)
Definition sendSessionMsg (conn : Conn) (m : EthrMsg) (ok : bool) : M bool :=
  modify (emit (EvSend conn m ok));; mret ok.

(** Binding the UDP socket and starting the workers; [ok] says whether
    resolving and listening succeeded. *)
Definition runServerPpsTest (test : loc) (ok : bool) : M bool :=
  modify (emit (EvPpsSetup test ok));; mret ok.

Definition setActive (test : loc) (b : bool) : M unit :=
  _ ← loadTest test;
  modify (fun w => emit (EvSetActive test b) (setHeap (alter (withActive b) test) w)).

(** [close(test.done)]. *)
Definition closeDone (test : loc) : M unit :=
  r ← loadTest test;
  if done r then panic CloseOfClosedChannel
  else modify (fun w => emit (EvDoneClose test) (setHeap (alter (withDone true) test) w)).

Definition cleanupFunc (test : loc) : M unit :=
  r ← loadTest test;
  modify (closeConnId (ctrlConn r));;
  closeDone test;;
  modify (deleteTest test).

Definition rejectMsg `{Names} (p : EthrTestParam) (server : string) : string :=
  "Rejected duplicate " +:+ protoToString (Protocol (TestId p)) +:+ " " +:+
  testToString (Type_ (TestId p)) +:+ " test from " +:+ server.

Definition handleRequest `{Names} (conn : Conn) (s : CtrlScript) : M unit :=
  deferred (closeConnId conn) (
    ethrMsg ← recvSessionMsg conn (firstMsg s);
    match isSyn ethrMsg with
    | None => mret tt
    | Some synParam =>
      let server := remoteHost conn in
      let port := remotePort conn in
      printMsg ("New control connection from " +:+ server +:+ ", port " +:+ port);;
      printMsg ("Starting " +:+ protoToString (Protocol (TestId synParam)) +:+ " " +:+
                testToString (Type_ (TestId synParam)) +:+ " test from " +:+ server);;
      r ← liftState (newTest server conn synParam);
      match r with
      | None =>
        let msg := rejectMsg synParam server in
        printMsg msg;;
        sendSessionMsg conn (createFinMsg msg) (finSendOk s);;
        mret tt
      | Some test =>
        emitTestHdr;;
        t ← loadTest test;
        pps ← (if decide (Type_ (TestId (testParam t)) = Pps)
                then runServerPpsTest test (ppsSetupOk s)
                else mret true);
        if negb pps then cleanupFunc test
        else
          sent ← sendSessionMsg conn createAckMsg (ackSendOk s);
          if negb sent then cleanupFunc test
          else
            ethrMsg ← recvSessionMsg conn (reply s);
            if negb (isAck ethrMsg) then cleanupFunc test
            else
              setActive test true;;
              c ← loadTest test;
              modify (emit (EvCtrlRead (ctrlConn c)));;
              printMsg ("Ending " +:+ testToString (Type_ (TestId synParam)) +:+
                        " test from " +:+ server);;
              setActive test false;;
              cleanupFunc test;;
              w ← getWorld;
              if lenSessionKeysPositive w then emitTestHdr else mret tt
      end
    end).

(** ** Data plane *)

(** How a handler loop stands once its script is used up: it has returned,
    or it is blocked in its next receive. *)
Inductive LoopExit := Exited | Running.

(** A deferred call of a looping handler: it runs once the loop is left, by
    return or by panic. *)
Definition deferredLoop (d : World → World) (body : M LoopExit) : M LoopExit :=
  fun w => match body w with
           | Done Exited w' => Done Exited (d w')
           | Done Running w' => Done Running w'
           | Panicked p w' => Panicked p (d w')
           end.

Definition closeConn (conn : Conn) (w : World) : World :=
  let w1 := emit EvPrintDbg w in
  let w2 := closeConnId conn w1 in
  if decide (connId conn ∈ closed w1) then emit EvPrintDbg w2 else w2.

(** *** TCP bandwidth: [reads] holds the results of the successive
    [io.ReadFull] calls, [true] for a [nil] error. *)
Fixpoint bandwidthLoop (conn : Conn) (test : loc) (size : Z) (reads : list bool)
    : M LoopExit :=
  t ← loadTest test;
  if done t then mret Exited
  else
    match reads with
    | [] => mret Running
    | ok :: rest =>
      modify (emit (EvConnRead conn ok));;
      if negb ok then printDbg;; bandwidthLoop conn test size rest
      else atomicAdd test size;; bandwidthLoop conn test size rest
    end.

Definition runBandwidthHandler (conn : Conn) (test : loc) (reads : list bool)
    : M LoopExit :=
  deferredLoop (closeConn conn) (
    t ← loadTest test;
    let size := BufferSize (testParam t) in
    bandwidthLoop conn test size reads).

(** *** TCP connections per second *)
Definition runCPSHandler (conn : Conn) : M unit :=
  deferred (closeConnId conn) (
    let server := remoteHost conn in
    test ← lookupTest server Tcp Cps;
    match test with
    | Some t => atomicAdd t 1
    | None => mret tt
    end).

(** *** UDP packets per second: each script entry is one [ReadFromUDP],
    [Some (host, port)] of the sender or [None] for an error. *)
Fixpoint runPPSHandler (test : loc) (datagrams : list (option (string * string)))
    : M LoopExit :=
  match datagrams with
  | [] => mret Running
  | None :: _ => printDbg;; mret Exited
  | Some (server, port) :: rest =>
    found ← lookupTest server Udp Pps;
    match found with
    | Some t => atomicAdd t 1
    | None => printDbg
    end;;
    runPPSHandler test rest
  end.

(** *** HTTP bandwidth *)

Record Request := {
  Method : string;
  bodyErr : option string;
  ContentLength : Z;
  RemoteAddrHost : string;
  RemoteAddrPort : string
}.

Definition StatusOK : Z := 200.
Definition StatusBadRequest : Z := 400.
Definition StatusUnauthorized : Z := 401.
Definition StatusMethodNotAllowed : Z := 405.

(** [w.Write(body)] and [http.Error(w, msg, code)] on the request's
    [http.ResponseWriter]. *)
Definition respWrite (body : string) : M unit := modify (emit (EvRespWrite body)).
Definition respError (msg : string) (code : Z) : M unit :=
  modify (emit (EvRespError msg code)).

Definition handleHttpRequest (r : Request) : M unit :=
  modify (emit (EvBodyRead (bool_decide (bodyErr r = None))));;
  match bodyErr r with
  | Some err => printDbg;; respError err StatusBadRequest
  | None =>
    served ← (if decide (Method r = "GET") then respWrite "ok";; mret true
              else if decide (Method r = "PUT") then respWrite "ok";; mret true
              else if decide (Method r = "POST") then respWrite "ok";; mret true
              else respError "Only GET, PUT and POST are supported."
                     StatusMethodNotAllowed;; mret false);
    if negb served then mret tt
    else
      let server := RemoteAddrHost r in
      test ← lookupTest server Http Bandwidth;
      match test with
      | None => respError "Unauthorized request." StatusUnauthorized
      | Some t =>
        if 0 <? ContentLength r then atomicAdd t (wrap64 (ContentLength r))
        else mret tt
      end
  end.

(** *** TCP latency *)

(** [float64] as IEEE 754 binary64. *)
Definition f64prec : Z := 53.
Definition f64emax : Z := 1024.

Definition f64ofZ (z : Z) : spec_float := binary_normalize f64prec f64emax z 0 false.
Definition f64mul : spec_float → spec_float → spec_float := SFmul f64prec f64emax.
Definition f64div : spec_float → spec_float → spec_float := SFdiv f64prec f64emax.
Definition f64sub : spec_float → spec_float → spec_float := SFsub f64prec f64emax.

(** The constants [99.9] and [99.99]: the exact decimal rounded once to the
    nearest binary64 value. *)
Definition f64_99_9 : spec_float := f64div (f64ofZ 999) (f64ofZ 10).
Definition f64_99_99 : spec_float := f64div (f64ofZ 9999) (f64ofZ 100).

(** [uint64(x)] for a float: the fraction is dropped. *)
Definition f64toUint64 (x : spec_float) : Z :=
  match x with
  | S754_finite s m e =>
      let v := if 0 <=? e then Z.pos m * 2 ^ e else Z.pos m / 2 ^ (- e) in
      wrap64 (if s then - v else v)
  | _ => 0
  end.

(** [uint64(((float64(n)*p)/100)-1)]. *)
Definition floatIndex (n : Z) (p : spec_float) : Z :=
  f64toUint64 (f64sub (f64div (f64mul (f64ofZ n) p) (f64ofZ 100)) (f64ofZ 1)).

(** [((n*p)/100)-1] in [uint32]. *)
Definition intIndex (n p : Z) : Z := wrap32 (wrap32 (n * p) / 100 - 1).

(** [s[i]] with Go's bounds check. *)
Definition index (s : list Z) (i : Z) : M Z :=
  match s !! Z.to_nat i with
  | Some x => mret x
  | None => panic IndexOutOfRange
  end.

(** [sort.SliceStable] with [less(i, j) = s[i] < s[j]]. *)
Definition sortSliceStable (s : list Z) : list Z := merge_sort Z.le s.

Definition sumNanoseconds (s : list Z) : Z :=
  foldl (fun sum d => wrapInt64 (sum + d)) 0 s.

(** One round trip of the inner loop: the echo could not be written, the
    next probe could not be read, or both went through and [time.Since]
    gave [e2]. *)
Inductive Rtt := RttOk (e2 : Z) | RttWriteErr | RttReadErr.

Inductive RttResult :=
| RttComplete (latencyNumbers : list Z)
| RttReturn
| RttBlocked.

Fixpoint rttLoop (conn : Conn) (rttCount i : Z) (rtts : list Rtt)
    (latencyNumbers : list Z) : M RttResult :=
  match rtts with
  | [] => if i <? rttCount then mret RttBlocked else mret (RttComplete latencyNumbers)
  | ev :: rest =>
    if i <? rttCount then
      match ev with
      | RttWriteErr =>
        modify (emit (EvConnWrite conn false));; printDbg;; mret RttReturn
      | RttReadErr =>
        modify (emit (EvConnWrite conn true));;
        modify (emit (EvConnRead conn false));; printDbg;; mret RttReturn
      | RttOk e2 =>
        modify (emit (EvConnWrite conn true));;
        modify (emit (EvConnRead conn true));;
        if i <? Z.of_nat (length latencyNumbers) then
          rttLoop conn rttCount (wrap32 (i + 1)) rest (<[Z.to_nat i := e2]> latencyNumbers)
        else panic IndexOutOfRange
      end
    else mret (RttComplete latencyNumbers)
  end.

(** The code between the inner loop and the end of the outer loop body;
    it returns the slice as the sort left it. *)
Definition latencyStats `{Names} (test : loc) (rttCount : Z) (latencyNumbers : list Z)
    : M (list Z) :=
  let sum := sumNanoseconds latencyNumbers in
  if rttCount =? 0 then panic DivideByZero
  else
    let elapsed := Z.quot sum rttCount in
    let latencyNumbers := sortSliceStable latencyNumbers in
    let rttCountFixed := if rttCount =? 1 then 2 else rttCount in
    atomicSwap test (wrap64 elapsed);;
    let avg := elapsed in
    min ← index latencyNumbers 0;
    max ← index latencyNumbers (wrap32 (rttCount - 1));
    p50 ← index latencyNumbers (intIndex rttCountFixed 50);
    p90 ← index latencyNumbers (intIndex rttCountFixed 90);
    p95 ← index latencyNumbers (intIndex rttCountFixed 95);
    p99 ← index latencyNumbers (intIndex rttCountFixed 99);
    p999 ← index latencyNumbers (floatIndex rttCountFixed f64_99_9);
    p9999 ← index latencyNumbers (floatIndex rttCountFixed f64_99_99);
    t ← loadTest test;
    modify (emit (EvEmitLatencyResults (remoteAddr t)
                    (protoToString (Protocol (TestId (testParam t))))
                    {| avg := avg; min := min; max := max; p50 := p50; p90 := p90;
                       p95 := p95; p99 := p99; p999 := p999; p9999 := p9999 |}));;
    mret latencyNumbers.

(** The outer loop: each batch is the result of the probe read that opens
    it and the round trips that follow. *)
Fixpoint latencyLoop `{Names} (conn : Conn) (test : loc) (rttCount : Z)
    (latencyNumbers : list Z) (batches : list (bool * list Rtt)) : M LoopExit :=
  match batches with
  | [] => mret Running
  | (probeOk, rtts) :: rest =>
    modify (emit (EvConnRead conn probeOk));;
    if negb probeOk then printDbg;; mret Exited
    else
      r ← rttLoop conn rttCount 0 rtts latencyNumbers;
      match r with
      | RttReturn => mret Exited
      | RttBlocked => mret Running
      | RttComplete latencyNumbers =>
        latencyNumbers ← latencyStats test rttCount latencyNumbers;
        latencyLoop conn test rttCount latencyNumbers rest
      end
  end.

Definition runLatencyHandler `{Names} (conn : Conn) (test : loc)
    (batches : list (bool * list Rtt)) : M LoopExit :=
  deferredLoop (closeConnId conn) (
    t ← loadTest test;
    let rttCount := RttCount (testParam t) in
    let latencyNumbers := replicate (Z.to_nat rttCount) 0 in
    latencyLoop conn test rttCount latencyNumbers batches).

(** ** Reading traces *)

Definition isSend (e : Event) : bool :=
  match e with EvSend _ _ _ => true | _ => false end.

Definition isRecv (e : Event) : bool :=
  match e with EvRecv _ _ => true | _ => false end.

Definition isResp (e : Event) : bool :=
  match e with EvRespWrite _ | EvRespError _ _ => true | _ => false end.

Definition isConnRead (e : Event) : bool :=
  match e with EvConnRead _ _ => true | _ => false end.

Definition sends (tr : list Event) : list Event := List.filter isSend tr.
Definition recvs (tr : list Event) : list Event := List.filter isRecv tr.
Definition connReads (tr : list Event) : list Event := List.filter isConnRead tr.
Definition responses (tr : list Event) : list Event := List.filter isResp tr.

(** The status line [net/http] puts on the wire: the first call on the
    writer decides, a [Write] without a header standing for 200. *)
Definition responseStatus (tr : list Event) : option Z :=
  match responses tr with
  | EvRespWrite _ :: _ => Some StatusOK
  | EvRespError _ code :: _ => Some code
  | _ => None
  end.

(** The events that precede the first [test.isActive = true] of [t], if the
    trace has one. *)
Fixpoint beforeActive (t : loc) (tr : list Event) : option (list Event) :=
  match tr with
  | [] => None
  | EvSetActive t' true :: rest =>
      if decide (t' = t) then Some [] else cons (EvSetActive t' true) <$> beforeActive t rest
  | e :: rest => cons e <$> beforeActive t rest
  end.

(** ** Reading worlds *)

(** From [w] to [w'] the counter of [t] went up by [n] (modulo [2^64], as
    [atomic.AddUint64] does) and nothing else in the registry or in any test
    record changed. *)
Definition creditedOnly (t : loc) (n : Z) (w w' : World) : Prop :=
  gSessions w' = gSessions w ∧
  (∀ t', t' ≠ t → heap w' !! t' = heap w !! t') ∧
  heap w' !! t = (fun r => withData (wrap64 (data r + n)) r) <$> heap w !! t.

Definition untouched (w w' : World) : Prop :=
  gSessions w' = gSessions w ∧ heap w' = heap w.

(** ** Sample scenarios *)

Definition sampleNames : Names := {|
  protoToString := fun p => match p with Tcp => "TCP" | Udp => "UDP" | Http => "HTTP" end;
  testToString := fun t =>
    match t with
    | Bandwidth => "Bandwidth" | Cps => "Connections/s"
    | Pps => "Packets/s" | Latency => "Latency"
    end
|}.

Definition sampleConn (id : nat) : Conn :=
  {| connId := id; remoteHost := "10.0.0.7"; remotePort := "50123" |}.

Definition sampleParam (proto : EthrProtocol) (ty : EthrTestType) (rttCount : Z)
    : EthrTestParam :=
  {| TestId := {| Protocol := proto; Type_ := ty |};
     NumThreads := 1; BufferSize := 1024; RttCount := rttCount |}.

Definition sampleTest (proto : EthrProtocol) (ty : EthrTestType) (rttCount : Z)
    : ethrTest :=
  {| remoteAddr := "10.0.0.7"; testParam := sampleParam proto ty rttCount;
     ctrlConn := sampleConn 0; done := false; isActive := true; data := 0 |}.

Definition emptyWorld : World :=
  {| gSessions := ∅; heap := ∅; closed := ∅; trace := [] |}.

(** A peer that sends [Syn] and [Ack] and a host on which every send and
    the UDP setup succeed. *)
Definition sampleScript (p : EthrTestParam) : CtrlScript :=
  {| firstMsg := EthrSyn p; ppsSetupOk := true; ackSendOk := true;
     finSendOk := true; reply := EthrAck |}.

(** A server with one live test, held at location 1. *)
Definition sampleWorld (proto : EthrProtocol) (ty : EthrTestType) (rttCount : Z)
    : World :=
  {| gSessions := {[ ("10.0.0.7", proto, ty) := 1%positive ]};
     heap := {[ 1%positive := sampleTest proto ty rttCount ]};
     closed := ∅; trace := [] |}.

(** ** Reading latency batches *)

(** The sum of a batch as a mathematical integer. *)
Definition total (s : list Z) : Z := foldr Z.add 0 s.

(** [rttCountFixed]. *)
Definition rttCountEff (rttCount : Z) : Z := if rttCount =? 1 then 2 else rttCount.

(** The index as the specification words it, [ceil(n * p / 100) - 1], for
    the percentile [p = num / den]. *)
Definition specPercentileIndex (n num den : Z) : Z :=
  - ((- (n * num)) / (100 * den)) - 1.

(** What the latest [emitLatencyResults] call reported. *)
Definition lastReport (w : World) : option LatencyResults :=
  match last (trace w) with
  | Some (EvEmitLatencyResults _ _ r) => Some r
  | _ => None
  end.

Definition counterOf (t : loc) (w : World) : option Z := data <$> heap w !! t.

(** The samples [0, 1, ..., n - 1] nanoseconds, in measurement order. *)
Definition ramp (n : Z) : list Z := Z.of_nat <$> seq 0 (Z.to_nat n).

(** ** Reading the rounding of binary64 operations *)

(** [mrs] locates the rational [N / H]: its mantissa is the integer part
    and the two flags say where the remainder lies in the unit. *)
Definition located (N H : Z) (mrs : shr_record) : Prop :=
  0 ≤ shr_m mrs ∧
  ∃ rr, N = shr_m mrs * H + rr ∧ 0 ≤ rr < H ∧
        (shr_r mrs = true ↔ H ≤ 2 * rr) ∧
        (shr_s mrs = true ↔ rr ≠ 0 ∧ 2 * rr ≠ H).


(** * Properties *)

(** ** Running the monad *)

Ltac mrun :=
  cbv beta iota zeta delta
    [mbind M_bind bind mret M_ret ret modify panic liftState getWorld
     printMsg printDbg emitTestHdr recvSessionMsg sendSessionMsg runServerPpsTest
     atomicAdd atomicSwap deferred deferredLoop isSyn isAck negb
     createAckMsg createFinMsg respWrite respError lookupTest].

Ltac wsimpl :=
  cbn [heap gSessions closed trace setSessions setHeap emit closeConnId
       remoteAddr testParam ctrlConn done isActive data withData withDone withActive
       atomicAddData atomicSwapData].

Lemma newTest_dup server conn p w t0 :
  gSessions w !! keyOf server p = Some t0 → newTest server conn p w = (None, w).
Proof. intros Hk. unfold newTest. by rewrite Hk. Qed.

Lemma newTest_fresh server conn p w :
  gSessions w !! keyOf server p = None →
  newTest server conn p w =
    (Some (fresh (dom (heap w))),
     setSessions <[keyOf server p := fresh (dom (heap w))]>
       (setHeap <[fresh (dom (heap w)) :=
                   {| remoteAddr := server; testParam := p; ctrlConn := conn;
                      done := false; isActive := false; data := 0 |}]> w)).
Proof. intros Hk. unfold newTest. by rewrite Hk. Qed.

Lemma fresh_loc_unused (w : World) : heap w !! fresh (dom (heap w)) = None.
Proof. apply not_elem_of_dom, is_fresh. Qed.

Lemma loadTest_Some t r w : heap w !! t = Some r → loadTest t w = Done r w.
Proof. intros Hr. unfold loadTest. by rewrite Hr. Qed.

Lemma setActive_run t r b w :
  heap w !! t = Some r →
  setActive t b w = Done tt (emit (EvSetActive t b) (setHeap (alter (withActive b) t) w)).
Proof. intros Hr. unfold setActive. mrun. by rewrite (loadTest_Some _ _ _ Hr). Qed.

Lemma cleanupFunc_run t r w :
  heap w !! t = Some r → done r = false →
  cleanupFunc t w =
    Done tt (setSessions (delete (testKey r))
               (emit (EvDoneClose t)
                  (setHeap (alter (withDone true) t) (closeConnId (ctrlConn r) w)))).
Proof.
  intros Hr Hd. unfold cleanupFunc, closeDone. mrun.
  rewrite (loadTest_Some _ _ _ Hr).
  rewrite (loadTest_Some t r) by (wsimpl; done).
  rewrite Hd. unfold deleteTest. wsimpl. by rewrite lookup_alter_eq, Hr.
Qed.

Ltac hlookup := wsimpl; rewrite ?alter_insert_eq; wsimpl; apply lookup_insert_eq.

Ltac cstep :=
  first
    [ erewrite loadTest_Some by hlookup
    | erewrite setActive_run by hlookup
    | erewrite cleanupFunc_run by first [hlookup | reflexivity] ];
  mrun; wsimpl.

(** ** Control channel *)

(** C1: a [Syn] whose key already has a test in the registry is answered
    with a [Fin] that carries the duplicate-rejection text, the connection is
    closed, and neither the registry nor any test record changes. *)
Theorem handleRequest_duplicate_rejected `{Names} conn s p w t0 :
  firstMsg s = EthrSyn p →
  gSessions w !! keyOf (remoteHost conn) p = Some t0 →
  ∃ w' reason detail pre,
    handleRequest conn s w = Done tt w' ∧
    trace w' = trace w ++ pre ++
               [EvSend conn (EthrFin reason) (finSendOk s); EvConnClose conn] ∧
    sends pre = [] ∧
    reason = "Rejected duplicate " +:+ detail ∧
    connId conn ∈ closed w' ∧
    gSessions w' = gSessions w ∧
    heap w' = heap w.
Proof.
  intros Hs Hk. unfold handleRequest. rewrite Hs. mrun.
  rewrite (newTest_dup _ _ _ _ t0) by exact Hk. mrun.
  eexists _, _, _, [_; _; _; _]. split; [reflexivity|]. wsimpl.
  split; [by rewrite <- !app_assoc|].
  split; [reflexivity|].
  split; [reflexivity|].
  split; [set_solver|]. done.
Qed.

(** C2: once the test record exists, every way out of the handler closes
    the control connection, closes [done] and removes the record from the
    registry; at most one [Ack] is sent and at most one reply is awaited, and
    the test is marked active only after exactly one [Ack] was sent and
    exactly one [Ack] came back. *)
Theorem handleRequest_handshake_cleanup `{Names} conn s p w :
  firstMsg s = EthrSyn p →
  gSessions w !! keyOf (remoteHost conn) p = None →
  let t := fresh (dom (heap w)) in
  ∃ w' tr r,
    handleRequest conn s w = Done tt w' ∧
    trace w' = trace w ++ tr ∧
    heap w !! t = None ∧
    heap w' = <[t := r]> (heap w) ∧
    ctrlConn r = conn ∧ connId conn ∈ closed w' ∧ EvConnClose (ctrlConn r) ∈ tr ∧
    done r = true ∧ EvDoneClose t ∈ tr ∧
    gSessions w' = gSessions w ∧
    isActive r = false ∧
    (sends tr = [] ∨ ∃ ok, sends tr = [EvSend conn EthrAck ok]) ∧
    (recvs tr = [EvRecv conn (EthrSyn p)] ∨
     recvs tr = [EvRecv conn (EthrSyn p); EvRecv conn (reply s)]) ∧
    match beforeActive t tr with
    | Some pre =>
        sends pre = [EvSend conn EthrAck true] ∧
        recvs pre = [EvRecv conn (EthrSyn p); EvRecv conn EthrAck]
    | None => True
    end ∧
    (is_Some (beforeActive t tr) ↔
       (Type_ (TestId p) = Pps → ppsSetupOk s = true) ∧
       ackSendOk s = true ∧ reply s = EthrAck).
Proof.
  intros Hs Hk t. unfold handleRequest. rewrite Hs. mrun.
  rewrite newTest_fresh by exact Hk. wsimpl. fold t.
  cstep.
  destruct (decide (Type_ (TestId p) = Pps)) as [Hp|Hp];
    destruct (ppsSetupOk s); destruct (ackSendOk s); destruct (reply s); mrun;
    repeat cstep;
    try (destruct (lenSessionKeysPositive _); mrun; wsimpl).
  all: rewrite ?alter_insert_eq; wsimpl.
  all: eexists _, _, _; split; [reflexivity|]; wsimpl; rewrite ?alter_insert_eq.
  all: split; [rewrite <- !app_assoc; reflexivity|].
  all: split; [apply fresh_loc_unused|].
  all: split; [reflexivity|].
  all: split; [reflexivity|].
  all: split; [set_solver|].
  all: split; [cbn; set_solver|].
  all: split; [reflexivity|].
  all: split; [set_solver|].
  all: split; [unfold testKey; cbn; rewrite delete_insert_eq; by apply delete_id|].
  all: split; [reflexivity|].
  all: split; [cbn; eauto|].
  all: split; [cbn; eauto|].
  all: cbn; rewrite ?decide_True by done; cbn.
  all: split; [done|].
  all: try (split; [intros [? ?]; done | intros (? & ? & ?); try done; naive_solver]).
Qed.

(** ** Data plane *)

Lemma bandwidthLoop_open conn test size reads r w :
  heap w !! test = Some r → done r = false →
  ∃ w', bandwidthLoop conn test size reads w = Done Running w' ∧
        closed w' = closed w ∧ gSessions w' = gSessions w ∧
        connReads (trace w') =
          connReads (trace w) ++ (EvConnRead conn <$> reads) ∧
        ∃ r', heap w' !! test = Some r' ∧ done r' = false.
Proof.
  revert r w. induction reads as [|ok rest IH]; intros r w Hr Hd.
  - cbn [bandwidthLoop]. mrun. rewrite (loadTest_Some _ _ _ Hr), Hd.
    eexists. split; [reflexivity|]. rewrite app_nil_r. eauto 10.
  - cbn [bandwidthLoop]. mrun. rewrite (loadTest_Some _ _ _ Hr), Hd.
    destruct ok; mrun.
    + edestruct (IH (withData (wrap64 (data r + size)) r)
                   (atomicAddData test size (emit (EvConnRead conn true) w)))
        as (w' & -> & Hc & Hg & Ht & Hh).
      { wsimpl. by rewrite lookup_alter_eq, Hr. }
      { done. }
      eexists. split; [reflexivity|]. repeat split; try done.
      rewrite Ht. wsimpl. unfold connReads. rewrite List.filter_app. cbn.
      by rewrite <- app_assoc.
    + edestruct (IH r (emit EvPrintDbg (emit (EvConnRead conn false) w)))
        as (w' & -> & Hc & Hg & Ht & Hh); [done..|].
      eexists. split; [reflexivity|]. repeat split; try done.
      rewrite Ht. wsimpl. unfold connReads. rewrite !List.filter_app. cbn.
      by rewrite app_nil_r, <- app_assoc.
Qed.

(** C7, as the code has it: a failed read does not leave the loop.  With
    [done] still open and every read failing, the handler has read three
    times after three results and is still in the loop with the connection
    open, about to read again. *)
Theorem runBandwidthHandler_reads_on_after_error :
  ∃ w', runBandwidthHandler (sampleConn 1) 1%positive [false; false; false]
          (sampleWorld Tcp Bandwidth 0) = Done Running w' ∧
        (connId (sampleConn 1) ∉ closed w') ∧
        connReads (trace w') =
          [EvConnRead (sampleConn 1) false; EvConnRead (sampleConn 1) false;
           EvConnRead (sampleConn 1) false] ∧
        EvConnClose (sampleConn 1) ∉ trace w'.
Proof.
  eexists. split; [vm_compute; reflexivity|]. split; [|split].
  - vm_compute. set_solver.
  - vm_compute. reflexivity.
  - vm_compute. intros Hin. apply (proj1 (list_elem_of_In _ _)) in Hin.
    cbn in Hin. intuition discriminate.
Qed.

Ltac credited :=
  unfold creditedOnly; wsimpl; split; [done|]; split;
  [intros ? ?; by rewrite lookup_alter_ne | by rewrite lookup_alter_eq].

(** C8: one accepted conn/s connection, or one received pkt/s datagram, adds
    exactly 1 to the counter of the test registered for its sender and
    changes nothing else; without such a test nothing changes at all. *)
Theorem cps_pps_count_by_one w :
  (∀ conn, ∃ w',
      runCPSHandler conn w = Done tt w' ∧
      match getTest (remoteHost conn) Tcp Cps w with
      | Some t => creditedOnly t 1 w w'
      | None => untouched w w'
      end) ∧
  (∀ test server port rest, ∃ w1,
      runPPSHandler test (Some (server, port) :: rest) w = runPPSHandler test rest w1 ∧
      match getTest server Udp Pps w with
      | Some t => creditedOnly t 1 w w1
      | None => untouched w w1
      end) ∧
  (∀ test rest, ∃ w', runPPSHandler test (None :: rest) w = Done Exited w' ∧
                      untouched w w') ∧
  (∀ d, 0 ≤ d < 2 ^ 64 - 1 → wrap64 (d + 1) = d + 1).
Proof.
  repeat split.
  - intros conn. unfold runCPSHandler. mrun.
    destruct (getTest (remoteHost conn) Tcp Cps w) as [t|]; mrun.
    + eexists. split; [reflexivity|].
      credited.
    + eexists. split; [reflexivity|]. done.
  - intros test server port rest. cbn [runPPSHandler]. mrun.
    destruct (getTest server Udp Pps w) as [t|]; mrun.
    + eexists. split; [reflexivity|].
      credited.
    + eexists. split; [reflexivity|]. done.
  - intros test rest. cbn [runPPSHandler]. mrun. eexists. split; [reflexivity|]. done.
  - intros d Hd. unfold wrap64. apply Z.mod_small. lia.
Qed.

Lemma wrap64_add_wrap64 a b : wrap64 (a + wrap64 b) = wrap64 (a + b).
Proof. unfold wrap64. apply Zplus_mod_idemp_r. Qed.

(** C9: after the body is read, a method other than GET, PUT and POST is
    answered 405; for the three methods "ok" is written first (status 200),
    then the test of [(remote address, Http, Bandwidth)] is looked up: without
    one the handler adds a 401 error, with one it adds the declared content
    length to the counter exactly when the length is positive. *)
Theorem handleHttpRequest_spec r w :
  ∃ w' tr,
    handleHttpRequest r w = Done tt w' ∧ trace w' = trace w ++ tr ∧
    match bodyErr r with
    | Some err =>
        tr = [EvBodyRead false; EvPrintDbg; EvRespError err StatusBadRequest] ∧
        untouched w w'
    | None =>
        if decide (Method r = "GET" ∨ Method r = "PUT" ∨ Method r = "POST") then
          responseStatus tr = Some StatusOK ∧
          match getTest (RemoteAddrHost r) Http Bandwidth w with
          | None =>
              tr = [EvBodyRead true; EvRespWrite "ok";
                    EvGetTest (RemoteAddrHost r, Http, Bandwidth) None;
                    EvRespError "Unauthorized request." StatusUnauthorized] ∧
              untouched w w'
          | Some t =>
              tr = [EvBodyRead true; EvRespWrite "ok";
                    EvGetTest (RemoteAddrHost r, Http, Bandwidth) (Some t)] ∧
              if 0 <? ContentLength r then creditedOnly t (ContentLength r) w w'
              else untouched w w'
          end
        else
          tr = [EvBodyRead true;
                EvRespError "Only GET, PUT and POST are supported."
                  StatusMethodNotAllowed] ∧
          responseStatus tr = Some StatusMethodNotAllowed ∧
          untouched w w'
    end.
Proof.
  unfold handleHttpRequest, getTest. mrun. unfold getTest. wsimpl.
  destruct (bodyErr r) as [err|]; mrun.
  { eexists _, _. split; [reflexivity|]. wsimpl. rewrite <- !app_assoc. done. }
  assert (Hcred : ∀ t e1 e2 e3,
    creditedOnly t (ContentLength r) w
      (atomicAddData t (wrap64 (ContentLength r)) (emit e1 (emit e2 (emit e3 w))))).
  { intros t e1 e2 e3. unfold creditedOnly. wsimpl. split; [done|]. split.
    - intros t' Hne. by rewrite lookup_alter_ne.
    - rewrite lookup_alter_eq. destruct (heap w !! t); [|done]. cbn.
      by rewrite wrap64_add_wrap64. }
  destruct (decide (Method r = "GET" ∨ Method r = "PUT" ∨ Method r = "POST"))
    as [Hm|Hm].
  - assert (Hserved :
      (if decide (Method r = "GET") then respWrite "ok";; mret true
       else if decide (Method r = "PUT") then respWrite "ok";; mret true
       else if decide (Method r = "POST") then respWrite "ok";; mret true
       else respError "Only GET, PUT and POST are supported."
              StatusMethodNotAllowed;; mret false) =
      (respWrite "ok";; mret true : M bool)).
    { repeat case_decide; try done. tauto. }
    revert Hserved. mrun. intros ->.
    wsimpl.
    destruct (gSessions w !! (RemoteAddrHost r, Http, Bandwidth)) as [t|]; mrun;
       [destruct (0 <? ContentLength r); mrun|].
    all: eexists _, _; (split; [reflexivity|]); wsimpl; rewrite <- ?app_assoc;
       (split; [reflexivity|]); split; [reflexivity|]; split; try done; apply Hcred.
  - rewrite !decide_False by tauto. mrun.
    eexists _, _. split; [reflexivity|]. wsimpl. rewrite <- ?app_assoc. done.
Qed.

(** ** Latency *)

Lemma wrap32_small z : 0 ≤ z < 2 ^ 32 → wrap32 z = z.
Proof. intros Hz. unfold wrap32. by apply Z.mod_small. Qed.

Lemma wrap64_small z : 0 ≤ z < 2 ^ 64 → wrap64 z = z.
Proof. intros Hz. unfold wrap64. by apply Z.mod_small. Qed.

Lemma wrapInt64_small z : - 2 ^ 63 ≤ z < 2 ^ 63 → wrapInt64 z = z.
Proof. intros Hz. unfold wrapInt64. rewrite Z.mod_small; lia. Qed.

Lemma rttLoop_complete conn rttCount samples :
  ∀ i nums w,
    0 ≤ i → rttCount < 2 ^ 32 →
    i + Z.of_nat (length samples) = rttCount →
    Z.of_nat (length nums) = rttCount →
    ∃ w', rttLoop conn rttCount i (RttOk <$> samples) nums w =
            Done (RttComplete (take (Z.to_nat i) nums ++ samples)) w' ∧
          heap w' = heap w ∧ gSessions w' = gSessions w ∧ closed w' = closed w.
Proof.
  induction samples as [|e2 rest IH]; intros i nums w Hi Hn Hlen Hnums.
  - cbn [fmap list_fmap rttLoop]. cbn in Hlen.
    rewrite (proj2 (Z.ltb_ge i rttCount)) by lia. mrun.
    eexists. split; [|done]. rewrite app_nil_r, firstn_all2; [done|lia].
  - cbn [fmap list_fmap rttLoop]. cbn [length] in Hlen.
    rewrite (proj2 (Z.ltb_lt i rttCount)) by lia. mrun.
    rewrite (proj2 (Z.ltb_lt i _)) by lia.
    rewrite wrap32_small by lia.
    edestruct (IH (i + 1) (<[Z.to_nat i := e2]> nums)
                 (emit (EvConnRead conn true) (emit (EvConnWrite conn true) w)))
      as (w' & Hrun & Hh & Hg & Hc); [lia|lia|lia|by rewrite length_insert|].
    fold (fmap (M:=list) RttOk rest). rewrite Hrun.
    eexists. split; [|done]. do 2 f_equal.
    replace (Z.to_nat (i + 1)) with (S (Z.to_nat i)) by lia.
    rewrite (take_S_r _ _ e2) by (apply list_lookup_insert_eq; lia).
    rewrite take_insert_ge by lia.
    by rewrite <- app_assoc.
Qed.

Lemma sumNanoseconds_total s :
  Forall (fun d => 0 ≤ d) s → total s < 2 ^ 63 → sumNanoseconds s = total s.
Proof.
  unfold sumNanoseconds. intros Hpos Hsum.
  assert (Hgen : ∀ acc, 0 ≤ acc → acc + total s < 2 ^ 63 →
     foldl (fun sum d => wrapInt64 (sum + d)) acc s = acc + total s).
  { clear Hsum. induction Hpos as [|d rest Hd Hrest IH]; intros acc Hacc Hb.
    - cbn. unfold total. cbn. lia.
    - assert (0 ≤ total rest).
      { clear -Hrest. induction Hrest; unfold total in *; cbn; lia. }
      change (total (d :: rest)) with (d + total rest) in *.
      cbn [foldl]. rewrite wrapInt64_small by lia. rewrite IH; lia. }
  rewrite Hgen; lia.
Qed.

Lemma total_nonneg s : Forall (fun d => 0 ≤ d) s → 0 ≤ total s.
Proof. induction 1; unfold total in *; cbn; lia. Qed.

Lemma index_cases (s : list Z) i w :
  (∃ x, s !! Z.to_nat i = Some x ∧ index s i w = Done x w) ∨
  (s !! Z.to_nat i = None ∧ index s i w = Panicked IndexOutOfRange w).
Proof. unfold index. destruct (s !! Z.to_nat i); mrun; eauto. Qed.

Lemma index_Some (s : list Z) i x w :
  s !! Z.to_nat i = Some x → index s i w = Done x w.
Proof. intros Hx. unfold index. by rewrite Hx. Qed.

(** The counter is swapped before any slice is indexed. *)
Lemma latencyStats_counter `{Names} test t rttCount nums w :
  heap w !! test = Some t → rttCount ≠ 0 →
  counterOf test (finalWorld (latencyStats test rttCount nums w)) =
    Some (wrap64 (Z.quot (sumNanoseconds nums) rttCount)).
Proof.
  intros Ht Hn. unfold latencyStats.
  rewrite (proj2 (Z.eqb_neq rttCount 0)) by done. mrun.
  set (w1 := atomicSwapData _ _ w).
  assert (Hw1 : counterOf test w1 =
                Some (wrap64 (Z.quot (sumNanoseconds nums) rttCount))).
  { unfold counterOf, w1. wsimpl. by rewrite lookup_alter_eq, Ht. }
  assert (Ht1 : ∃ t1, heap w1 !! test = Some t1).
  { unfold w1. wsimpl. rewrite lookup_alter_eq, Ht. eauto. }
  destruct Ht1 as [t1 Ht1].
  repeat match goal with
  | |- context [index ?s ?i w1] =>
      destruct (index_cases s i w1) as [(? & _ & ->)|[_ ->]]; [|exact Hw1]
  end.
  rewrite (loadTest_Some _ _ _ Ht1). exact Hw1.
Qed.

Lemma latencyStats_report `{Names} test t rttCount nums w
    vmin vmax v50 v90 v95 v99 v999 v9999 :
  heap w !! test = Some t → rttCount ≠ 0 →
  let sorted := sortSliceStable nums in
  let n := rttCountEff rttCount in
  sorted !! Z.to_nat 0 = Some vmin →
  sorted !! Z.to_nat (wrap32 (rttCount - 1)) = Some vmax →
  sorted !! Z.to_nat (intIndex n 50) = Some v50 →
  sorted !! Z.to_nat (intIndex n 90) = Some v90 →
  sorted !! Z.to_nat (intIndex n 95) = Some v95 →
  sorted !! Z.to_nat (intIndex n 99) = Some v99 →
  sorted !! Z.to_nat (floatIndex n f64_99_9) = Some v999 →
  sorted !! Z.to_nat (floatIndex n f64_99_99) = Some v9999 →
  latencyStats test rttCount nums w =
    Done sorted
      (emit (EvEmitLatencyResults (remoteAddr t)
               (protoToString (Protocol (TestId (testParam t))))
               {| avg := Z.quot (sumNanoseconds nums) rttCount;
                  min := vmin; max := vmax; p50 := v50; p90 := v90; p95 := v95;
                  p99 := v99; p999 := v999; p9999 := v9999 |})
         (atomicSwapData test (wrap64 (Z.quot (sumNanoseconds nums) rttCount)) w)).
Proof.
  intros Ht Hn sorted n H0 H1 H2 H3 H4 H5 H6 H7. unfold latencyStats.
  rewrite (proj2 (Z.eqb_neq rttCount 0)) by done. mrun.
  fold (rttCountEff rttCount). fold n. fold sorted.
  rewrite (index_Some _ _ _ _ H0), (index_Some _ _ _ _ H1), (index_Some _ _ _ _ H2),
    (index_Some _ _ _ _ H3), (index_Some _ _ _ _ H4), (index_Some _ _ _ _ H5),
    (index_Some _ _ _ _ H6), (index_Some _ _ _ _ H7).
  erewrite loadTest_Some by (wsimpl; rewrite lookup_alter_eq, Ht; reflexivity).
  reflexivity.
Qed.

Lemma latencyLoop_batch `{Names} conn test rttCount nums samples rest w :
  0 ≤ rttCount < 2 ^ 32 →
  Z.of_nat (length samples) = rttCount →
  Z.of_nat (length nums) = rttCount →
  ∃ w1, latencyLoop conn test rttCount nums ((true, RttOk <$> samples) :: rest) w =
          (nums' ← latencyStats test rttCount samples;
           latencyLoop conn test rttCount nums' rest) w1 ∧
        heap w1 = heap w ∧ gSessions w1 = gSessions w ∧ closed w1 = closed w.
Proof.
  intros Hr Hs Hn. cbn [latencyLoop]. mrun.
  edestruct (rttLoop_complete conn rttCount samples 0 nums
               (emit (EvConnRead conn true) w)) as (w1 & -> & Hh & Hg & Hc);
    [lia..|].
  exists w1. split; [|done]. reflexivity.
Qed.

Lemma lastReport_emit w addr proto r :
  lastReport (emit (EvEmitLatencyResults addr proto r) w) = Some r.
Proof. unfold lastReport. wsimpl. by rewrite last_snoc. Qed.

(** C10: with [RttCount = 0] the handler panics on the division by zero as
    soon as the first probe is read (and the slice is empty, so the indices
    of [min] and [max] are out of range as well); a run that does not panic
    therefore has [RttCount ≥ 1]. *)
Theorem runLatencyHandler_needs_rttCount `{Names} conn test t w rtts batches :
  heap w !! test = Some t →
  0 ≤ RttCount (testParam t) →
  let run := runLatencyHandler conn test ((true, rtts) :: batches) w in
  let latencyNumbers := replicate (Z.to_nat (RttCount (testParam t))) 0 in
  (RttCount (testParam t) = 0 →
     (∃ w', run = Panicked DivideByZero w') ∧
     latencyNumbers !! Z.to_nat 0 = None ∧
     latencyNumbers !! Z.to_nat (wrap32 (RttCount (testParam t) - 1)) = None) ∧
  ((∀ p w', run ≠ Panicked p w') → 1 ≤ RttCount (testParam t)).
Proof.
  intros Ht Hpos run latencyNumbers.
  assert (Hzero : RttCount (testParam t) = 0 →
                  (∃ w', run = Panicked DivideByZero w') ∧
                  latencyNumbers !! Z.to_nat 0 = None ∧
                  latencyNumbers !! Z.to_nat (wrap32 (RttCount (testParam t) - 1)) = None).
  { intros Hz. unfold run, latencyNumbers, runLatencyHandler. mrun.
    rewrite (loadTest_Some _ _ _ Ht), Hz. cbn [latencyLoop]. mrun.
    assert (Hloop : ∀ nums w0, rttLoop conn 0 0 rtts nums w0 = Done (RttComplete nums) w0).
    { intros nums w0. destruct rtts; reflexivity. }
    rewrite Hloop. unfold latencyStats. cbn [Z.eqb]. mrun. eauto. }
  split; [exact Hzero|].
  intros Hnp. destruct (decide (RttCount (testParam t) = 0)) as [Hz|Hz]; [|lia].
  destruct (Hzero Hz) as [[w' Hrun] _]. by destruct (Hnp _ _ Hrun).
Qed.

Lemma sortSliceStable_singleton d : sortSliceStable [d] = [d].
Proof. reflexivity. Qed.

(** C4: with [rttCount = 1] the minimum, the maximum and all six percentiles
    of the report are the single sample. *)
Theorem latency_single_sample `{Names} conn test t w nums d rest :
  heap w !! test = Some t →
  length nums = 1%nat →
  ∃ w',
    latencyLoop conn test 1 nums ((true, [RttOk d]) :: rest) w =
      latencyLoop conn test 1 [d] rest w' ∧
    lastReport w' =
      Some {| avg := wrapInt64 d; min := d; max := d; p50 := d; p90 := d;
              p95 := d; p99 := d; p999 := d; p9999 := d |}.
Proof.
  intros Ht Hn.
  destruct (latencyLoop_batch conn test 1 nums [d] rest w) as (w1 & Hrun & Hh & _);
    [lia|done|by rewrite Hn|].
  change (RttOk <$> [d]) with [RttOk d] in Hrun. rewrite Hrun. clear Hrun.
  assert (Ht1 : heap w1 !! test = Some t) by by rewrite Hh.
  mrun.
  rewrite (latencyStats_report test t 1 [d] w1 d d d d d d d d Ht1);
    [|first [lia | vm_compute; reflexivity]..].
  replace (sumNanoseconds [d] `quot` 1) with (wrapInt64 d)
    by (unfold sumNanoseconds; cbn [foldl]; by rewrite Z.quot_1_r).
  change (sortSliceStable [d]) with [d].
  eexists. split; [reflexivity|]. by rewrite lastReport_emit.
Qed.

Lemma finalWorld_bind {A B} (m : M A) (k : A → M B) w :
  (∀ a w', finalWorld (k a w') = w') →
  finalWorld ((m ≫= k) w) = finalWorld (m w).
Proof. intros Hk. mrun. destruct (m w); [apply Hk|done]. Qed.

(** C6: after a batch the counter of the test is the truncated mean of the
    batch's samples, whatever it held before. *)
Theorem latency_counter_is_batch_mean `{Names} conn test t w rttCount nums samples :
  heap w !! test = Some t →
  1 ≤ rttCount < 2 ^ 32 →
  Z.of_nat (length samples) = rttCount →
  Z.of_nat (length nums) = rttCount →
  Forall (fun d => 0 ≤ d) samples →
  total samples < 2 ^ 63 →
  counterOf test
    (finalWorld (latencyLoop conn test rttCount nums [(true, RttOk <$> samples)] w)) =
    Some (total samples / rttCount).
Proof.
  intros Ht Hr Hs Hn Hpos Hsum.
  destruct (latencyLoop_batch conn test rttCount nums samples [] w)
    as (w1 & -> & Hh & _); [lia|done..|].
  rewrite finalWorld_bind by done.
  assert (Ht1 : heap w1 !! test = Some t) by by rewrite Hh.
  rewrite (latencyStats_counter test t) by (done || lia).
  rewrite sumNanoseconds_total by done.
  pose proof (total_nonneg _ Hpos) as Htot.
  rewrite Z.quot_div_nonneg by lia.
  rewrite wrap64_small; [done|].
  split; [apply Z.div_pos; lia|].
  apply Z.le_lt_trans with (total samples); [|lia].
  apply Z.div_le_upper_bound; nia.
Qed.

Lemma ramp_length n : 0 ≤ n → Z.of_nat (length (ramp n)) = n.
Proof. intros Hn. unfold ramp. rewrite length_fmap, length_seq. lia. Qed.

Lemma ramp_lookup n k : 0 ≤ k < n → ramp n !! Z.to_nat k = Some k.
Proof.
  intros Hk. unfold ramp. rewrite list_lookup_fmap, lookup_seq_lt by lia.
  cbn. f_equal. lia.
Qed.

Lemma ramp_sorted n : Sorted Z.le (ramp n).
Proof.
  unfold ramp. generalize (Z.to_nat n). intros m. generalize 0%nat.
  induction m as [|m IH]; intros a; cbn; [constructor|].
  constructor; [apply IH|]. destruct m; cbn; constructor. lia.
Qed.

Lemma sortSliceStable_sorted s : Sorted Z.le s → sortSliceStable s = s.
Proof.
  intros Hs. unfold sortSliceStable.
  apply (Sorted_unique Z.le); [apply Sorted_merge_sort; apply _|done|].
  apply merge_sort_Permutation.
Qed.

(** C3, as stated: with ten samples the code reports the ninth smallest as
    p95, while [ceil(10 * 95 / 100) - 1 = 9] selects the tenth. *)
Lemma percentile_ceil_formula_fails :
  let samples := [70; 10; 100; 30; 20; 90; 50; 40; 80; 60] in
  let sorted := sortSliceStable samples in
  ∃ w' r,
    latencyLoop (H:=sampleNames) (sampleConn 1) 1%positive 10 (replicate 10 0)
      [(true, RttOk <$> samples)] (sampleWorld Tcp Latency 10) = Done Running w' ∧
    lastReport w' = Some r ∧
    sorted = [10; 20; 30; 40; 50; 60; 70; 80; 90; 100] ∧
    p95 r = 90 ∧
    sorted !! Z.to_nat (specPercentileIndex (rttCountEff 10) 95 1) = Some 100 ∧
    sorted !! Z.to_nat (specPercentileIndex (rttCountEff 10) 95 1) ≠ Some (p95 r).
Proof.
  eexists _, _. split; [vm_compute; reflexivity|].
  split; [vm_compute; reflexivity|]. by vm_compute.
Qed.

(** C5, as the code has it: for [rttCount = 45210200] the product
    [rttCount * 95] exceeds [2^32], the index of p95 wraps to 16, and on
    strictly increasing samples the reported p95 lies below p90. *)
Theorem latency_percentiles_not_monotone :
  let rttCount := 45210200 in
  ∃ w' r,
    latencyLoop (H:=sampleNames) (sampleConn 1) 1%positive rttCount
      (replicate (Z.to_nat rttCount) 0)
      [(true, RttOk <$> ramp rttCount)] (sampleWorld Tcp Latency rttCount) =
      Done Running w' ∧
    lastReport w' = Some r ∧
    p90 r = 40689179 ∧ p95 r = 16 ∧ p95 r < p90 r.
Proof.
  intros rttCount.
  destruct (latencyLoop_batch (H:=sampleNames) (sampleConn 1) 1%positive rttCount
              (replicate (Z.to_nat rttCount) 0) (ramp rttCount) []
              (sampleWorld Tcp Latency rttCount)) as (w1 & -> & Hh & _).
  { unfold rttCount. lia. }
  { apply ramp_length. unfold rttCount. lia. }
  { rewrite length_replicate. unfold rttCount. lia. }
  assert (Ht1 : heap w1 !! 1%positive = Some (sampleTest Tcp Latency rttCount)).
  { rewrite Hh. apply lookup_singleton_eq. }
  mrun.
  erewrite (latencyStats_report (H:=sampleNames) 1%positive _ rttCount (ramp rttCount) w1
              _ _ _ _ _ _ _ _ Ht1).
  - cbn [latencyLoop]. mrun. eexists _, _. split; [reflexivity|].
    split; [apply lastReport_emit|]. cbn [p90 p95]. split; [reflexivity|].
    split; [reflexivity|]. lia.
  - unfold rttCount. lia.
  - rewrite sortSliceStable_sorted by apply ramp_sorted.
    apply ramp_lookup. unfold rttCount. lia.
  - rewrite sortSliceStable_sorted by apply ramp_sorted.
    apply ramp_lookup. unfold rttCount. vm_compute. split; [discriminate|reflexivity].
  - rewrite sortSliceStable_sorted by apply ramp_sorted.
    apply ramp_lookup. unfold rttCount. vm_compute. split; [discriminate|reflexivity].
  - rewrite sortSliceStable_sorted by apply ramp_sorted.
    replace (intIndex (rttCountEff rttCount) 90) with 40689179 by (vm_compute; reflexivity).
    apply ramp_lookup. unfold rttCount. lia.
  - rewrite sortSliceStable_sorted by apply ramp_sorted.
    replace (intIndex (rttCountEff rttCount) 95) with 16 by (vm_compute; reflexivity).
    apply ramp_lookup. unfold rttCount. lia.
  - rewrite sortSliceStable_sorted by apply ramp_sorted.
    apply ramp_lookup. unfold rttCount. vm_compute. split; [discriminate|reflexivity].
  - rewrite sortSliceStable_sorted by apply ramp_sorted.
    apply ramp_lookup. unfold rttCount. vm_compute. split; [discriminate|reflexivity].
  - rewrite sortSliceStable_sorted by apply ramp_sorted.
    apply ramp_lookup. unfold rttCount. vm_compute. split; [discriminate|reflexivity].
Qed.

(** ** binary64 rounding *)

(** The float indices of [runLatencyHandler] are computed in binary64.  The
    lemmas below read the rounding of [SpecFloat]'s operations as integer
    inequalities, strong enough to show that the truncated result is the
    exact [floor(n * p / 100) - 1] for every [uint32] count [n ≥ 2]. *)

Lemma digits2_pos_bounds p :
  2 ^ (Z.pos (digits2_pos p) - 1) ≤ Z.pos p < 2 ^ Z.pos (digits2_pos p).
Proof.
  induction p as [p IH|p IH|]; cbn [digits2_pos].
  - rewrite Pos2Z.inj_succ.
    replace (Z.succ (Z.pos (digits2_pos p)) - 1) with (Z.pos (digits2_pos p) - 1 + 1) by lia.
    rewrite Z.pow_succ_r by lia. rewrite Z.pow_add_r by lia. lia.
  - rewrite Pos2Z.inj_succ.
    replace (Z.succ (Z.pos (digits2_pos p)) - 1) with (Z.pos (digits2_pos p) - 1 + 1) by lia.
    rewrite Z.pow_succ_r by lia. rewrite Z.pow_add_r by lia. lia.
  - cbn. lia.
Qed.

Lemma Zdigits2_bounds m :
  0 < m → 2 ^ (Zdigits2 m - 1) ≤ m < 2 ^ Zdigits2 m.
Proof. destruct m as [|p|p]; [lia| |lia]. intros _. apply digits2_pos_bounds. Qed.

Lemma Zdigits2_pos m : 0 < m → 0 < Zdigits2 m.
Proof. destruct m; cbn; lia. Qed.

Lemma Zdigits2_unique m d :
  2 ^ (d - 1) ≤ m < 2 ^ d → 0 < d → Zdigits2 m = d.
Proof.
  intros Hm Hd.
  assert (0 < m) by (pose proof (Z.pow_pos_nonneg 2 (d - 1)); lia).
  pose proof (Zdigits2_bounds m) as Hb. pose proof (Zdigits2_pos m).
  destruct (Z.lt_trichotomy (Zdigits2 m) d) as [Hlt|[Heq|Hgt]]; [|done|].
  - assert (2 ^ Zdigits2 m ≤ 2 ^ (d - 1)) by (apply Z.pow_le_mono_r; lia). lia.
  - assert (2 ^ d ≤ 2 ^ (Zdigits2 m - 1)) by (apply Z.pow_le_mono_r; lia). lia.
Qed.

Lemma iter_pos_nat {A} (f : A → A) p x :
  SpecFloat.iter_pos f p x = Nat.iter (Pos.to_nat p) f x.
Proof.
  revert x. induction p as [p IH|p IH|]; intros x; cbn [SpecFloat.iter_pos].
  - rewrite !IH. rewrite Pos2Nat.inj_xI.
    replace (S (2 * Pos.to_nat p)) with (Pos.to_nat p + (Pos.to_nat p + 1))%nat by lia.
    rewrite !Nat.iter_add. reflexivity.
  - rewrite !IH. rewrite Pos2Nat.inj_xO.
    replace (2 * Pos.to_nat p)%nat with (Pos.to_nat p + Pos.to_nat p)%nat by lia.
    rewrite Nat.iter_add. reflexivity.
  - reflexivity.
Qed.

(** One right shift: the dropped bit becomes the round bit and the old round
    and sticky bits merge into the sticky bit. *)
Lemma shr_1_nonneg m r s :
  0 ≤ m →
  shr_1 {| shr_m := m; shr_r := r; shr_s := s |} =
    {| shr_m := m / 2; shr_r := Z.odd m; shr_s := r || s |}.
Proof.
  intros Hm. destruct m as [|p|p]; [reflexivity| |lia].
  destruct p as [p|p|]; cbn [shr_1 Z.odd].
  - f_equal. rewrite Pos2Z.inj_xI. apply Z.div_unique with 1; lia.
  - f_equal. rewrite Pos2Z.inj_xO. apply Z.div_unique with 0; lia.
  - reflexivity.
Qed.

Lemma located_shr_1 N H mrs :
  0 < H → located N H mrs → located N (2 * H) (shr_1 mrs).
Proof.
  intros HH [Hm (rr & HN & Hrr & Hr & Hs)]. destruct mrs as [m r s].
  cbn [shr_m shr_r shr_s] in *.
  rewrite shr_1_nonneg by done. unfold located. cbn [shr_m shr_r shr_s].
  pose proof (Z.div_mod m 2 ltac:(lia)) as Hdm.
  pose proof (Z.mod_pos_bound m 2 ltac:(lia)) as Hmb.
  assert (Hrs : r || s = true ↔ rr ≠ 0).
  { rewrite orb_true_iff, Hr, Hs. lia. }
  split; [apply Z.div_pos; lia|].
  exists (m mod 2 * H + rr).
  rewrite Zodd_mod, Hrs.
  destruct (Z.eq_dec (m mod 2) 0) as [H0|H0].
  - rewrite H0 in *. cbn [Z.eqb]. split_and!; try lia; split; intros; first [done|lia].
  - assert (m mod 2 = 1) as H1 by lia. rewrite H1 in *. cbn [Z.eqb Pos.eqb].
    split_and!; try lia; split; intros; first [done|lia].
Qed.

Lemma located_iter N H k mrs :
  0 < H → located N H mrs →
  located N (2 ^ Z.of_nat k * H) (Nat.iter k shr_1 mrs) ∧
  shr_m (Nat.iter k shr_1 mrs) = shr_m mrs / 2 ^ Z.of_nat k.
Proof.
  intros HH Hl. induction k as [|k [IHl IHm]].
  - cbn [Nat.iter]. change (Z.of_nat 0) with 0.
    by rewrite Z.pow_0_r, Z.mul_1_l, Z.div_1_r.
  - change (Nat.iter (S k) shr_1 mrs) with (shr_1 (Nat.iter k shr_1 mrs)).
    rewrite Nat2Z.inj_succ, Z.pow_succ_r by lia.
    assert (0 < 2 ^ Z.of_nat k) by (apply Z.pow_pos_nonneg; lia).
    split.
    + replace (2 * 2 ^ Z.of_nat k * H) with (2 * (2 ^ Z.of_nat k * H)) by lia.
      apply located_shr_1; [nia|done].
    + destruct IHl as [Hm _]. destruct (Nat.iter k shr_1 mrs) as [m r s].
      rewrite shr_1_nonneg by done. cbn [shr_m shr_r shr_s] in *. rewrite IHm.
      rewrite Z.div_div by lia. f_equal. lia.
Qed.

(** Rounding to nearest even moves at most half a unit away from the
    located value. *)
Lemma located_round N H mrs :
  0 < H → located N H mrs →
  let M := round_nearest_even (shr_m mrs) (loc_of_shr_record mrs) in
  2 * Z.abs (M * H - N) ≤ H ∧ shr_m mrs ≤ M ≤ shr_m mrs + 1.
Proof.
  intros HH [Hm (rr & HN & Hrr & Hr & Hs)]. destruct mrs as [m r s]. cbn in *.
  destruct r, s; cbn.
  - assert (H ≤ 2 * rr) by (by apply Hr). assert (rr ≠ 0 ∧ 2 * rr ≠ H) by (by apply Hs). lia.
  - assert (H ≤ 2 * rr) by (by apply Hr).
    assert (2 * rr = H).
    { destruct (Z.eq_dec (2 * rr) H); [done|]. 
      assert (false = true) by (apply Hs; lia). done. }
    destruct (Z.even m); lia.
  - assert (¬ H ≤ 2 * rr) by (intros Hx; apply Hr in Hx; done). lia.
  - assert (¬ H ≤ 2 * rr) by (intros Hx; apply Hr in Hx; done). lia.
Qed.

Lemma shr_located mrs e k N H :
  0 ≤ k → 0 < H → located N H mrs →
  located N (2 ^ k * H) (fst (shr mrs e k)) ∧
  shr_m (fst (shr mrs e k)) = shr_m mrs / 2 ^ k ∧
  snd (shr mrs e k) = e + k.
Proof.
  intros Hk HH Hl. destruct k as [|p|p]; [| |lia]; cbn [shr fst snd].
  - rewrite Z.pow_0_r, Z.mul_1_l, Z.div_1_r, Z.add_0_r. done.
  - rewrite iter_pos_nat.
    destruct (located_iter N H (Pos.to_nat p) mrs HH Hl) as [H1 H2].
    rewrite positive_nat_Z in H1, H2. done.
Qed.

Lemma shr_m_of_loc m l : shr_m (shr_record_of_loc m l) = m.
Proof. by destruct l as [|[]]. Qed.

Lemma located_exact m : 0 ≤ m → located m 1 (shr_record_of_loc m loc_Exact).
Proof. intros Hm. split; [done|]. exists 0. cbn. split_and!; try lia; split; intros; lia || done. Qed.

(** [binary_round_aux] on a located value in the normal range: the result is
    a 53-bit mantissa, one or no binade above the shifted input, within half
    a unit of the exact value. *)
Lemma binary_round_aux_nearest mx ex lx N D :
  0 < mx → 0 < D → located N D (shr_record_of_loc mx lx) →
  let k := Zdigits2 mx - 53 in
  0 ≤ k → -1074 ≤ ex + k → ex + k + 1 ≤ 971 →
  ∃ M E, binary_round_aux 53 1024 false mx ex lx = S754_finite false M E ∧
         2 ^ 52 ≤ Z.pos M < 2 ^ 53 ∧
         (E = ex + k ∨ E = ex + k + 1) ∧
         2 * Z.abs (Z.pos M * 2 ^ (E - ex) * D - N) ≤ 2 ^ k * D.
Proof.
  intros Hmx HD Hloc k Hk Hlo Hhi.
  unfold binary_round_aux, shr_fexp.
  assert (Hfexp : fexp 53 1024 (Zdigits2 mx + ex) - ex = k).
  { unfold fexp, emin. rewrite Z.max_l by lia. lia. }
  rewrite Hfexp.
  destruct (shr_located (shr_record_of_loc mx lx) ex k N D Hk HD Hloc)
    as (Hl1 & Hm1 & He1).
  destruct (shr (shr_record_of_loc mx lx) ex k) as [mrs1 e1].
  cbn [fst snd] in *. subst e1. rewrite shr_m_of_loc in Hm1.
  assert (H2k : 0 < 2 ^ k) by (apply Z.pow_pos_nonneg; lia).
  pose proof (Zdigits2_bounds mx Hmx) as Hdig.
  replace (Zdigits2 mx - 1) with (52 + k) in Hdig by lia.
  replace (Zdigits2 mx) with (53 + k) in Hdig by lia.
  rewrite !Z.pow_add_r in Hdig by lia.
  assert (Hm1b : 2 ^ 52 ≤ shr_m mrs1 < 2 ^ 53).
  { rewrite Hm1. split.
    - apply Z.div_le_lower_bound; lia.
    - apply Z.div_lt_upper_bound; lia. }
  destruct (located_round N (2 ^ k * D) mrs1 ltac:(nia) Hl1) as [Hnear HM0].
  set (M0 := round_nearest_even (shr_m mrs1) (loc_of_shr_record mrs1)) in *.
  destruct (Z.eq_dec M0 (2 ^ 53)) as [Hcarry|Hnc].
  - rewrite Hcarry.
    replace (fexp 53 1024 (Zdigits2 (2 ^ 53) + (ex + k)) - (ex + k)) with 1.
    2:{ change (Zdigits2 (2 ^ 53)) with 54. unfold fexp, emin.
        rewrite Z.max_l by lia. lia. }
    cbn [shr shr_record_of_loc SpecFloat.iter_pos].
    change (shr_m (shr_1 {| shr_m := 2 ^ 53; shr_r := false; shr_s := false |}))
      with (Z.pos (Z.to_pos (2 ^ 52))).
    rewrite (proj2 (Z.leb_le (ex + k + 1) (1024 - 53))) by lia.
    eexists _, _. split; [reflexivity|].
    change (Z.pos (Z.to_pos (2 ^ 52))) with (2 ^ 52).
    split; [lia|]. split; [lia|].
    replace (ex + k + 1 - ex) with (k + 1) by lia.
    rewrite Z.pow_add_r by lia. change (2 ^ 1) with 2.
    rewrite Hcarry in Hnear.
    replace (2 ^ 52 * (2 ^ k * 2) * D - N) with (2 ^ 53 * (2 ^ k * D) - N); [done|].
    change (2 ^ 53) with (2 ^ 52 * 2). ring.
  - assert (HM0b : 2 ^ 52 ≤ M0 < 2 ^ 53) by lia.
    replace (fexp 53 1024 (Zdigits2 M0 + (ex + k)) - (ex + k)) with 0.
    2:{ rewrite (Zdigits2_unique M0 53) by lia. unfold fexp, emin.
        rewrite Z.max_l by lia. lia. }
    cbn [shr shr_record_of_loc shr_m].
    destruct M0 as [|M|M] eqn:HM; [lia| |lia].
    rewrite (proj2 (Z.leb_le (ex + k) (1024 - 53))) by lia.
    eexists _, _. split; [reflexivity|].
    split; [lia|]. split; [lia|].
    replace (ex + k - ex) with k by lia.
    replace (Z.pos M * 2 ^ k * D - N) with (Z.pos M * (2 ^ k * D) - N) by ring.
    done.
Qed.

Lemma pos_iter_xO m d : Z.pos (Pos.iter xO m d) = Z.pos m * 2 ^ Z.pos d.
Proof.
  induction d as [|d IH] using Pos.peano_ind.
  - cbn [Pos.iter]. lia.
  - rewrite Pos.iter_succ, Pos2Z.inj_xO, IH, Pos2Z.inj_succ, Z.pow_succ_r by lia. ring.
Qed.

Lemma shl_align_le m ex ex' :
  ex' ≤ ex →
  Z.pos (fst (shl_align m ex ex')) = Z.pos m * 2 ^ (ex - ex') ∧
  snd (shl_align m ex ex') = ex'.
Proof.
  intros Hle. unfold shl_align.
  destruct (ex' - ex) as [|p|p] eqn:Hd; [|lia|]; cbn [fst snd].
  - replace (ex - ex') with 0 by lia. rewrite Z.pow_0_r. lia.
  - rewrite pos_iter_xO. replace (ex - ex') with (Z.pos p) by lia. done.
Qed.

Lemma shl_align_gt m ex ex' : ex < ex' → shl_align m ex ex' = (m, ex).
Proof. intros Hlt. unfold shl_align. destruct (ex' - ex) eqn:Hd; [done|done|lia]. Qed.

Lemma pow2_pos k : 0 ≤ k → 0 < 2 ^ k.
Proof. intros. apply Z.pow_pos_nonneg; lia. Qed.

(** [binary_round] on an integer of at most 53 bits is exact. *)
Lemma binary_round_small m e :
  let d := Z.pos (digits2_pos m) in
  d ≤ 53 → -1074 ≤ e + d - 53 → e + d - 53 + 1 ≤ 971 →
  ∃ M, binary_round 53 1024 false m e = S754_finite false M (e + d - 53) ∧
       Z.pos M = Z.pos m * 2 ^ (53 - d) ∧ 2 ^ 52 ≤ Z.pos M < 2 ^ 53.
Proof.
  intros d Hsmall Hlo Hhi. unfold binary_round. fold d.
  assert (Hfexp : fexp 53 1024 (d + e) = d + e - 53).
  { unfold fexp, emin. rewrite Z.max_l by lia. lia. }
  rewrite Hfexp.
  pose proof (digits2_pos_bounds m) as Hdig. fold d in Hdig.
  assert (Hd0 : 0 < d) by (unfold d; lia).
  destruct (shl_align_le m e (d + e - 53) ltac:(lia)) as [Hmz Hez].
  destruct (shl_align m e (d + e - 53)) as [mz ez]. cbn [fst snd] in *. subst ez.
  replace (e - (d + e - 53)) with (53 - d) in Hmz by lia.
  assert (Hmzb : 2 ^ 52 ≤ Z.pos mz < 2 ^ 53).
  { rewrite Hmz. pose proof (pow2_pos (53 - d) ltac:(lia)).
    replace (2 ^ 52) with (2 ^ (d - 1) * 2 ^ (53 - d))
      by (rewrite <- Z.pow_add_r by lia; f_equal; lia).
    replace (2 ^ 53) with (2 ^ d * 2 ^ (53 - d))
      by (rewrite <- Z.pow_add_r by lia; f_equal; lia).
    nia. }
  assert (Hk : Zdigits2 (Z.pos mz) - 53 = 0)
    by (rewrite (Zdigits2_unique (Z.pos mz) 53); lia).
  destruct (binary_round_aux_nearest (Z.pos mz) (d + e - 53) loc_Exact (Z.pos mz) 1)
    as (M & E & Hrun & HM & HE & Hnear);
    [lia|lia|apply located_exact; lia|rewrite Hk; lia..|].
  rewrite Hk in HE, Hnear. rewrite Z.pow_0_r in Hnear.
  assert (E = d + e - 53 ∧ Z.pos M = Z.pos mz) as [-> HMz].
  { destruct HE as [->| ->].
    - replace (d + e - 53 + 0 - (d + e - 53)) with 0 in Hnear by lia.
      rewrite Z.pow_0_r in Hnear. lia.
    - replace (d + e - 53 + 0 + 1 - (d + e - 53)) with 1 in Hnear by lia.
      change (2 ^ 1) with 2 in Hnear. lia. }
  exists M. rewrite Hrun. split; [f_equal; lia|]. lia.
Qed.

(** [binary_round] on a longer integer is exact when the bits to be dropped
    are all zero. *)
Lemma binary_round_big m e :
  let d := Z.pos (digits2_pos m) in
  53 < d → -1074 ≤ e + d - 53 → e + d - 53 + 1 ≤ 971 →
  (2 ^ (d - 53) | Z.pos m) →
  ∃ M E, binary_round 53 1024 false m e = S754_finite false M E ∧
         2 ^ 52 ≤ Z.pos M < 2 ^ 53 ∧ e ≤ E ∧ Z.pos M * 2 ^ (E - e) = Z.pos m.
Proof.
  intros d Hbig Hlo Hhi Hdiv. unfold binary_round. fold d.
  assert (Hfexp : fexp 53 1024 (d + e) = d + e - 53).
  { unfold fexp, emin. rewrite Z.max_l by lia. lia. }
  rewrite Hfexp, shl_align_gt by lia.
  destruct (binary_round_aux_nearest (Z.pos m) e loc_Exact (Z.pos m) 1)
    as (M & E & Hrun & HM & HE & Hnear);
    [lia|lia|apply located_exact; lia|cbn [Zdigits2]; fold d; lia..|].
  cbn [Zdigits2] in HE, Hnear. fold d in HE, Hnear.
  exists M, E. split; [done|]. split; [done|].
  destruct Hdiv as [j Hj].
  pose proof (pow2_pos (d - 53) ltac:(lia)) as Hp.
  rewrite Z.mul_1_r in Hnear.
  assert (HE' : ∃ i, (i = 0 ∨ i = 1) ∧ E - e = d - 53 + i).
  { destruct HE as [->| ->]; [exists 0|exists 1]; lia. }
  destruct HE' as (i & Hi & HEe). rewrite HEe.
  split; [lia|].
  rewrite HEe in Hnear. rewrite Z.pow_add_r in Hnear |- * by lia.
  assert (Hi2 : 0 < 2 ^ i) by (apply pow2_pos; lia).
  rewrite Hj in Hnear |- *.
  assert (Hnear' : 2 * Z.abs ((Z.pos M * 2 ^ i - j) * 2 ^ (d - 53)) ≤ 2 ^ (d - 53)).
  { etrans; [|etrans; [exact Hnear|lia]]. apply Z.eq_le_incl. do 2 f_equal. ring. }
  rewrite Z.abs_mul, (Z.abs_eq (2 ^ (d - 53))) in Hnear' by lia.
  assert (Z.abs (Z.pos M * 2 ^ i - j) = 0) by nia.
  assert (Z.pos M * 2 ^ i = j) by lia. nia.
Qed.

(** [float64(n)] for [0 < n < 2^53] is [n], normalised. *)
Lemma f64ofZ_spec n :
  0 < n < 2 ^ 53 →
  ∃ M, f64ofZ n = S754_finite false M (Zdigits2 n - 53) ∧
       Z.pos M = n * 2 ^ (53 - Zdigits2 n) ∧ 2 ^ 52 ≤ Z.pos M < 2 ^ 53.
Proof.
  intros Hn. unfold f64ofZ, f64prec, f64emax, binary_normalize.
  destruct n as [|p|p]; [lia| |lia]. cbn [Zdigits2].
  pose proof (digits2_pos_bounds p) as Hdig.
  assert (Z.pos (digits2_pos p) ≤ 53).
  { destruct (Z_le_gt_dec (Z.pos (digits2_pos p)) 53); [done|].
    assert (2 ^ 53 ≤ 2 ^ (Z.pos (digits2_pos p) - 1)) by (apply Z.pow_le_mono_r; lia).
    lia. }
  destruct (binary_round_small p 0) as (M & Hrun & HM); [lia..|].
  exists M. rewrite Hrun. split; [f_equal|done].
Qed.

(** The location the division computes from its remainder. *)
Lemma located_new_location N D q r :
  0 < D → 0 ≤ r < D → N = D * q + r → 0 ≤ q →
  located N D (shr_record_of_loc q (new_location D r)).
Proof.
  intros HD Hr HN Hq. split; [by rewrite shr_m_of_loc|].
  exists r. rewrite shr_m_of_loc. split; [lia|]. split; [done|].
  unfold new_location, new_location_even, new_location_odd.
  destruct (Z.even D) eqn:Hev.
  - destruct (Z.eqb_spec r 0) as [->|Hr0]; cbn.
    + split; split; intros; try done; lia.
    + destruct (Z.compare_spec (2 * r) D); cbn; split; split; intros; try done; lia.
  - assert (Hodd : Z.odd D = true) by by rewrite <- Z.negb_even, Hev.
    apply Z.odd_spec in Hodd as [j Hj].
    destruct (Z.eqb_spec r 0) as [->|Hr0]; cbn.
    + split; split; intros; try done; lia.
    + destruct (Z.compare_spec (2 * r + 1) D); cbn; split; split; intros; try done; lia.
Qed.

Lemma Zdigits2_range m a b :
  0 ≤ a → 2 ^ a ≤ m < 2 ^ b → a < Zdigits2 m ≤ b.
Proof.
  intros Ha Hm. assert (0 < m) by (pose proof (pow2_pos a Ha); lia).
  pose proof (Zdigits2_bounds m ltac:(done)) as Hb.
  pose proof (Zdigits2_pos m ltac:(done)).
  split.
  - destruct (Z_lt_le_dec a (Zdigits2 m)); [done|].
    assert (2 ^ Zdigits2 m ≤ 2 ^ a) by (apply Z.pow_le_mono_r; lia). lia.
  - destruct (Z_le_gt_dec (Zdigits2 m) b); [done|].
    assert (b < 0 ∨ 0 ≤ b) as [Hb0|Hb0] by lia.
    + rewrite (Z.pow_neg_r 2 b) in Hm by lia. lia.
    + assert (2 ^ b ≤ 2 ^ (Zdigits2 m - 1)) by (apply Z.pow_le_mono_r; lia). lia.
Qed.

(** The product of two normal numbers, as an integer inequality on the
    mantissas. *)
Lemma f64mul_nearest Mx ex My ey :
  2 ^ 52 ≤ Z.pos Mx < 2 ^ 53 → 2 ^ 52 ≤ Z.pos My < 2 ^ 53 →
  -1000 ≤ ex + ey ≤ 900 →
  ∃ M E, f64mul (S754_finite false Mx ex) (S754_finite false My ey) =
           S754_finite false M E ∧
         2 ^ 52 ≤ Z.pos M < 2 ^ 53 ∧
         52 ≤ E - (ex + ey) ≤ 54 ∧
         2 * Z.abs (Z.pos M * 2 ^ (E - (ex + ey)) - Z.pos Mx * Z.pos My)
           ≤ 2 ^ (E - (ex + ey)).
Proof.
  intros Hx Hy He. unfold f64mul, f64prec, f64emax, SFmul. cbn [xorb].
  rewrite Pos2Z.inj_mul.
  assert (HP : 2 ^ 104 ≤ Z.pos Mx * Z.pos My < 2 ^ 106).
  { change (2 ^ 104) with (2 ^ 52 * 2 ^ 52). change (2 ^ 106) with (2 ^ 53 * 2 ^ 53). nia. }
  pose proof (Zdigits2_range _ 104 106 ltac:(lia) HP) as Hdig.
  destruct (binary_round_aux_nearest (Z.pos Mx * Z.pos My) (ex + ey) loc_Exact
              (Z.pos Mx * Z.pos My) 1)
    as (M & E & Hrun & HM & HE & Hnear); [lia|lia|apply located_exact; lia|lia..|].
  exists M, E. split; [done|]. split; [done|]. split; [lia|].
  rewrite !Z.mul_1_r in Hnear.
  etrans; [exact Hnear|]. apply Z.pow_le_mono_r; lia.
Qed.

(** The quotient of two normal numbers, likewise. *)
Lemma f64div_nearest Mx ex My ey :
  2 ^ 52 ≤ Z.pos Mx < 2 ^ 53 → 2 ^ 52 ≤ Z.pos My < 2 ^ 53 →
  -900 ≤ ex - ey ≤ 900 →
  ∃ M E, f64div (S754_finite false Mx ex) (S754_finite false My ey) =
           S754_finite false M E ∧
         2 ^ 52 ≤ Z.pos M < 2 ^ 53 ∧
         0 ≤ E - (ex - ey - 53) ≤ 2 ∧
         2 * Z.abs (Z.pos M * 2 ^ (E - (ex - ey - 53)) * Z.pos My - Z.pos Mx * 2 ^ 53)
           ≤ 2 ^ (E - (ex - ey - 53)) * Z.pos My.
Proof.
  intros Hx Hy He. unfold f64div, f64prec, f64emax, SFdiv, SFdiv_core_binary.
  cbn [xorb].
  rewrite (Zdigits2_unique (Z.pos Mx) 53), (Zdigits2_unique (Z.pos My) 53) by lia.
  assert (Hfexp : Z.min (fexp 53 1024 (53 + ex - (53 + ey))) (ex - ey) = ex - ey - 53).
  { unfold fexp, emin. rewrite Z.max_l by lia. lia. }
  rewrite Hfexp.
  replace (ex - ey - (ex - ey - 53)) with 53 by lia.
  rewrite Z.shiftl_mul_pow2 by lia.
  pose proof (Z_div_mod (Z.pos Mx * 2 ^ 53) (Z.pos My) ltac:(lia)) as Hdm.
  destruct (Z.div_eucl (Z.pos Mx * 2 ^ 53) (Z.pos My)) as [q r].
  destruct Hdm as [Hqr Hr].
  assert (Hq : 2 ^ 52 ≤ q < 2 ^ 55).
  { change (2 ^ 55) with (2 ^ 53 * 4) in *. change (2 ^ 53) with (2 ^ 52 * 2) in *. nia. }
  pose proof (Zdigits2_range q 52 55 ltac:(lia) Hq) as Hdig.
  destruct (binary_round_aux_nearest q (ex - ey - 53) (new_location (Z.pos My) r)
              (Z.pos Mx * 2 ^ 53) (Z.pos My))
    as (M & E & Hrun & HM & HE & Hnear);
    [lia|lia|apply located_new_location; lia|lia..|].
  exists M, E. split; [done|]. split; [done|].
  set (k := Zdigits2 q - 53) in *.
  assert (Hk : k ≤ E - (ex - ey - 53) ≤ k + 1) by lia.
  assert (Hk2 : 2 ^ k ≤ 2 ^ (E - (ex - ey - 53))) by (apply Z.pow_le_mono_r; lia).
  assert (Hnear' : 2 * Z.abs (Z.pos M * 2 ^ (E - (ex - ey - 53)) * Z.pos My
                              - Z.pos Mx * 2 ^ 53)
                   ≤ 2 ^ (E - (ex - ey - 53)) * Z.pos My) by nia.
  split; [|done].
  split; [lia|].
  (* the quotient of two 53-bit mantissas does not need three extra bits *)
  destruct (Z_le_gt_dec (E - (ex - ey - 53)) 2); [done|].
  assert (2 ^ 3 ≤ 2 ^ (E - (ex - ey - 53))) by (apply Z.pow_le_mono_r; lia).
  change (2 ^ 3) with 8 in *. change (2 ^ 53) with (2 ^ 52 * 2) in *. nia.
Qed.

Lemma f64ofZ_1 : f64ofZ 1 = S754_finite false 4503599627370496 (-52).
Proof. vm_compute. reflexivity. Qed.

Lemma f64ofZ_100 : f64ofZ 100 = S754_finite false 7036874417766400 (-46).
Proof. vm_compute. reflexivity. Qed.

Lemma f64_99_9_bits : f64_99_9 = S754_finite false 7029837543348634 (-46).
Proof. vm_compute. reflexivity. Qed.

Lemma f64_99_99_bits : f64_99_99 = S754_finite false 7036170730324623 (-46).
Proof. vm_compute. reflexivity. Qed.

(** Truncating a float whose value is [m * 2^-52]. *)
Lemma f64toUint64_scaled M E m :
  0 < m →
  (-52 ≤ E ∧ Z.pos M * 2 ^ (E + 52) = m) ∨ (E ≤ -52 ∧ Z.pos M = m * 2 ^ (- 52 - E)) →
  f64toUint64 (S754_finite false M E) = wrap64 (m / 2 ^ 52).
Proof.
  intros Hm Hv. unfold f64toUint64. f_equal.
  destruct (Z.leb_spec 0 E) as [HE|HE].
  - destruct Hv as [[_ Hv]|[? _]]; [|lia].
    rewrite Z.pow_add_r in Hv by lia. rewrite <- Hv.
    rewrite Z.mul_assoc, Z.div_mul by lia. done.
  - destruct Hv as [[HE' Hv]|[HE' Hv]].
    + rewrite <- Hv.
      replace (2 ^ 52) with (2 ^ (- E) * 2 ^ (E + 52))
        by (rewrite <- Z.pow_add_r by lia; f_equal; lia).
      rewrite Z.div_mul_cancel_r; [done|..];
        apply Z.pow_nonzero; lia.
    + rewrite Hv.
      replace (2 ^ (- E)) with (2 ^ 52 * 2 ^ (- 52 - E))
        by (rewrite <- Z.pow_add_r by lia; f_equal; lia).
      rewrite Z.div_mul_cancel_r; [done|..]; apply Z.pow_nonzero; lia.
Qed.

(** [uint64(x - 1)] for a float [1 ≤ x < 2^53]: the subtraction is exact, so
    the result is [floor(x) - 1]. *)
Lemma f64sub_one_trunc M E :
  2 ^ 52 ≤ Z.pos M < 2 ^ 53 → -52 ≤ E ≤ 0 →
  f64toUint64 (f64sub (S754_finite false M E) (f64ofZ 1)) =
    wrap64 (Z.pos M / 2 ^ (- E) - 1).
Proof.
  intros HM HE. rewrite f64ofZ_1. unfold f64sub, f64prec, f64emax, SFsub.
  rewrite Z.min_r by lia. unfold cond_Zopp.
  destruct (shl_align_le M E (-52) ltac:(lia)) as [Hf _].
  destruct (shl_align_le 4503599627370496 (-52) (-52) ltac:(lia)) as [Hg _].
  rewrite Hf, Hg. clear Hf Hg.
  replace (E - -52) with (E + 52) by lia.
  replace (-52 - -52) with 0 by lia. rewrite Z.pow_0_r, Z.mul_1_r.
  change (Z.pos 4503599627370496) with (2 ^ 52).
  set (a := E + 52). assert (Ha : 0 ≤ a ≤ 52) by lia.
  pose proof (pow2_pos a ltac:(lia)) as H2a.
  assert (Hfloor : Z.pos M / 2 ^ (- E) - 1 = (Z.pos M * 2 ^ a - 2 ^ 52) / 2 ^ 52).
  { replace (Z.pos M * 2 ^ a - 2 ^ 52) with (Z.pos M * 2 ^ a + (-1) * 2 ^ 52) by lia.
    rewrite Z.div_add by lia.
    replace (2 ^ 52) with (2 ^ (- E) * 2 ^ a)
      by (rewrite <- Z.pow_add_r by lia; f_equal; lia).
    rewrite Z.div_mul_cancel_r; [lia|..]; apply Z.pow_nonzero; lia. }
  rewrite Hfloor.
  assert (Hge : 2 ^ 52 ≤ Z.pos M * 2 ^ a) by nia.
  unfold binary_normalize.
  destruct (Z.pos M * 2 ^ a - 2 ^ 52) as [|mD|mD] eqn:HD; [done| |lia].
  pose proof (digits2_pos_bounds mD) as Hdig.
  set (d := Z.pos (digits2_pos mD)) in *.
  assert (Hd0 : 0 < d) by (unfold d; lia).
  assert (HdD : d ≤ 53 + a).
  { destruct (Z_le_gt_dec d (53 + a)); [done|].
    assert (2 ^ (53 + a) ≤ 2 ^ (d - 1)) by (apply Z.pow_le_mono_r; lia).
    rewrite Z.pow_add_r in * by lia. nia. }
  destruct (Z_le_gt_dec d 53) as [Hsmall|Hbig].
  - destruct (binary_round_small mD (-52)) as (M3 & -> & HM3 & HM3b); [fold d; lia..|].
    fold d in HM3 |- *.
    apply f64toUint64_scaled; [lia|]. right. split; [lia|].
    by replace (-52 - (-52 + d - 53)) with (53 - d) by lia.
  - destruct (binary_round_big mD (-52)) as (M3 & E3 & -> & HM3b & HE3 & HM3);
      [fold d; lia..| |].
    { fold d. 
      exists (Z.pos M * 2 ^ (a - (d - 53)) - 2 ^ (52 - (d - 53))).
      rewrite Z.mul_sub_distr_r, <- Z.mul_assoc, <- !Z.pow_add_r by lia.
      rewrite <- HD. f_equal; f_equal; f_equal; lia. }
    apply f64toUint64_scaled; [lia|]. left. split; [lia|].
    by replace (E3 + 52) with (E3 - -52) by lia.
Qed.

(** The float index chain reduced to integer facts: [M1 / A1] is the
    rounded product, [M2 / (s * A1)] the rounded quotient. *)
Lemma floatIndex_chain n Mc :
  2 ≤ n < 2 ^ 32 → 2 ^ 52 ≤ Z.pos Mc < 2 ^ 53 →
  ∃ M1 M2 A1 s,
    0 < A1 ∧ 2 ^ 52 ≤ M1 < 2 ^ 53 ∧ 2 ^ 52 ≤ M2 < 2 ^ 53 ∧
    2 * Z.abs (2 ^ 46 * M1 - Z.pos Mc * (n * A1)) ≤ 2 ^ 46 ∧
    ((s = 128 ∧ Z.abs (100 * M2 - 128 * M1) ≤ 50) ∨
     (s = 64 ∧ Z.abs (200 * M2 - 128 * M1) ≤ 100)) ∧
    (s * A1 ≤ M2 →
     floatIndex n (S754_finite false Mc (-46)) = wrap64 (M2 / (s * A1) - 1)).
Proof.
  intros Hn HMc. unfold floatIndex.
  destruct (f64ofZ_spec n ltac:(lia)) as (Mx & -> & HMx & HMxb).
  pose proof (Zdigits2_range n 1 32 ltac:(lia) ltac:(lia)) as Hd.
  set (d := Zdigits2 n) in *.
  destruct (f64mul_nearest Mx (d - 53) Mc (-46) HMxb HMc ltac:(lia))
    as (M1 & E1 & -> & HM1 & Ht1 & Hnear1).
  rewrite f64ofZ_100.
  destruct (f64div_nearest M1 E1 7036874417766400 (-46) HM1 ltac:(lia) ltac:(lia))
    as (M2 & E2 & -> & HM2 & Hg & Hnear2).
  set (t1 := E1 - (d - 53 + -46)) in *.
  set (g := E2 - (E1 - -46 - 53)) in *.
  assert (HE1 : - E1 = 99 - d - t1) by lia.
  pose proof (pow2_pos (- E1) ltac:(lia)) as HA1.
  pose proof (pow2_pos t1 ltac:(lia)) as HT.
  pose proof (pow2_pos (53 - d) ltac:(lia)) as HS.
  assert (Hscale : Z.pos Mx * 2 ^ 46 = n * 2 ^ (- E1) * 2 ^ t1).
  { rewrite HMx, <- !Z.mul_assoc, <- !Z.pow_add_r by lia. do 2 f_equal. lia. }
  assert (Hstar1 : 2 * Z.abs (2 ^ 46 * Z.pos M1 - Z.pos Mc * (n * 2 ^ (- E1))) ≤ 2 ^ 46).
  { assert (Heq : 2 ^ 46 * (Z.pos M1 * 2 ^ t1 - Z.pos Mx * Z.pos Mc) =
                  2 ^ t1 * (2 ^ 46 * Z.pos M1 - Z.pos Mc * (n * 2 ^ (- E1)))).
    { transitivity (2 ^ 46 * Z.pos M1 * 2 ^ t1 - Z.pos Mc * (Z.pos Mx * 2 ^ 46)); [ring|].
      rewrite Hscale. ring. }
    assert (Habs : 2 ^ 46 * Z.abs (Z.pos M1 * 2 ^ t1 - Z.pos Mx * Z.pos Mc) =
                   2 ^ t1 * Z.abs (2 ^ 46 * Z.pos M1 - Z.pos Mc * (n * 2 ^ (- E1)))).
    { rewrite <- (Z.abs_eq (2 ^ 46)) at 1 by lia.
      rewrite <- (Z.abs_eq (2 ^ t1)) at 2 by lia.
      rewrite <- !Z.abs_mul. by rewrite Heq. }
    apply (Z.mul_le_mono_pos_l _ _ (2 ^ t1)); [lia|]. 
    replace (2 ^ t1 * (2 * Z.abs (2 ^ 46 * Z.pos M1 - Z.pos Mc * (n * 2 ^ (- E1)))))
      with (2 ^ 46 * (2 * Z.abs (Z.pos M1 * 2 ^ t1 - Z.pos Mx * Z.pos Mc))) by lia.
    rewrite (Z.mul_comm (2 ^ t1)). apply Z.mul_le_mono_nonneg_l; lia. }
  assert (Hg' : g = 0 ∨ g = 1 ∨ g = 2) by lia.
  assert (HE2 : - E2 = - E1 + (7 - g)) by lia.
  change (Z.pos 7036874417766400) with (100 * 2 ^ 46) in Hnear2.
  exists (Z.pos M1), (Z.pos M2), (2 ^ (- E1)), (2 ^ (7 - g)).
  split; [done|]. split; [done|]. split; [done|]. split; [done|].
  assert (Hs : (g = 0 ∧ Z.abs (100 * Z.pos M2 - 128 * Z.pos M1) ≤ 50) ∨
               (g = 1 ∧ Z.abs (200 * Z.pos M2 - 128 * Z.pos M1) ≤ 100)).
  { destruct Hg' as [Hg0|[Hg0|Hg0]]; rewrite Hg0 in Hnear2;
      [left|right|exfalso]; cbn in Hnear2 |- *; lia. }
  split.
  { destruct Hs as [[-> ?]|[-> ?]]; [left|right]; done. }
  intros Hy2.
  assert (H2E2 : 2 ^ (- E2) = 2 ^ (7 - g) * 2 ^ (- E1)).
  { rewrite HE2, Z.pow_add_r by lia. lia. }
  rewrite <- H2E2 in Hy2 |- *.
  apply f64sub_one_trunc; [done|]. split; [|lia].
  destruct (Z_le_gt_dec (-52) E2); [done|].
  assert (2 ^ 53 ≤ 2 ^ (- E2)) by (apply Z.pow_le_mono_r; lia). lia.
Qed.

(** The two roundings cannot move the quotient across an integer: scaled
    by [A1], [W] is the count, [KA] the integer part of [0.999 * count], [M1]
    the rounded product and [M2] the rounded quotient.  For [99.99] the
    constant lies below the decimal and the bound is tight. *)
Lemma core_999 M1 M2 W KA A1 s :
  0 < A1 →
  2 ^ 52 ≤ M1 < 2 ^ 53 → 2 ^ 52 ≤ M2 < 2 ^ 53 →
  2 * Z.abs (2 ^ 46 * M1 - 7029837543348634 * W) ≤ 2 ^ 46 →
  (s = 128 ∧ Z.abs (100 * M2 - 128 * M1) ≤ 50) ∨
  (s = 64 ∧ Z.abs (200 * M2 - 128 * M1) ≤ 100) →
  2 * A1 ≤ W ≤ (2 ^ 32 - 1) * A1 →
  1000 * KA ≤ 999 * W ≤ 1000 * KA + 999 * A1 →
  s * KA ≤ M2 < s * (KA + A1).
Proof. intros HA HM1 HM2 H1 [[-> H2]|[-> H2]] HW HK; lia. Qed.

Lemma core_9999 M1 M2 W KA A1 s :
  0 < A1 →
  2 ^ 52 ≤ M1 < 2 ^ 53 → 2 ^ 52 ≤ M2 < 2 ^ 53 →
  2 * Z.abs (2 ^ 46 * M1 - 7036170730324623 * W) ≤ 2 ^ 46 →
  (s = 128 ∧ Z.abs (100 * M2 - 128 * M1) ≤ 50) ∨
  (s = 64 ∧ Z.abs (200 * M2 - 128 * M1) ≤ 100) →
  2 * A1 ≤ W ≤ (2 ^ 32 - 1) * A1 →
  10000 * KA ≤ 9999 * W ≤ 10000 * KA + 9999 * A1 →
  s * KA ≤ M2 < s * (KA + A1).
Proof. intros HA HM1 HM2 H1 [[-> H2]|[-> H2]] HW HK; lia. Qed.

Lemma floatIndex_from_core n Mc num den s A1 M2 :
  2 ≤ n < 2 ^ 32 → 0 < den → den ≤ 2 * num → num ≤ den →
  0 < A1 → 0 < s →
  (s * (n * num / den * A1) ≤ M2 < s * (n * num / den * A1 + A1)) →
  (s * A1 ≤ M2 →
     floatIndex n (S754_finite false Mc (-46)) = wrap64 (M2 / (s * A1) - 1)) →
  floatIndex n (S754_finite false Mc (-46)) = n * num / den - 1.
Proof.
  intros Hn Hden Hnum Hnum2 HA Hs HM Hrun.
  set (K := n * num / den) in *.
  assert (HK : 1 ≤ K < 2 ^ 33).
  { unfold K. split.
    - apply Z.div_le_lower_bound; nia.
    - apply Z.div_lt_upper_bound; nia. }
  assert (HsA : 0 < s * A1) by nia.
  rewrite Hrun by nia.
  replace (M2 / (s * A1)) with K.
  - apply wrap64_small. lia.
  - apply (Z.div_unique M2 (s * A1) K (M2 - s * A1 * K)); [nia|lia].
Qed.

(** [uint64(float64(n) * 99.9 / 100 - 1)] is [floor(n * 999 / 1000) - 1]. *)
Theorem floatIndex_99_9 n :
  2 ≤ n < 2 ^ 32 → floatIndex n f64_99_9 = n * 999 / 1000 - 1.
Proof.
  intros Hn. rewrite f64_99_9_bits.
  destruct (floatIndex_chain n 7029837543348634 Hn ltac:(lia))
    as (M1 & M2 & A1 & s & HA & HM1 & HM2 & H1 & H2 & Hrun).
  pose proof (Z.div_mod (n * 999) 1000 ltac:(lia)) as Hdm.
  pose proof (Z.mod_pos_bound (n * 999) 1000 ltac:(lia)) as Hmb.
  set (K := n * 999 / 1000) in *.
  assert (Hs : 0 < s) by (destruct H2 as [[-> _]|[-> _]]; lia).
  apply (floatIndex_from_core n _ 999 1000 s A1 M2); try done; try lia.
  fold K. replace (K * A1 + A1) with ((K + 1) * A1) by ring.
  replace (s * ((K + 1) * A1)) with (s * (K * A1 + A1)) by ring.
  apply (core_999 M1 M2 (n * A1) (K * A1) A1 s); try done; nia.
Qed.

(** [uint64(float64(n) * 99.99 / 100 - 1)] is [floor(n * 9999 / 10000) - 1]. *)
Theorem floatIndex_99_99 n :
  2 ≤ n < 2 ^ 32 → floatIndex n f64_99_99 = n * 9999 / 10000 - 1.
Proof.
  intros Hn. rewrite f64_99_99_bits.
  destruct (floatIndex_chain n 7036170730324623 Hn ltac:(lia))
    as (M1 & M2 & A1 & s & HA & HM1 & HM2 & H1 & H2 & Hrun).
  pose proof (Z.div_mod (n * 9999) 10000 ltac:(lia)) as Hdm.
  pose proof (Z.mod_pos_bound (n * 9999) 10000 ltac:(lia)) as Hmb.
  set (K := n * 9999 / 10000) in *.
  assert (Hs : 0 < s) by (destruct H2 as [[-> _]|[-> _]]; lia).
  apply (floatIndex_from_core n _ 9999 10000 s A1 M2); try done; try lia.
  fold K. replace (K * A1 + A1) with ((K + 1) * A1) by ring.
  replace (s * ((K + 1) * A1)) with (s * (K * A1 + A1)) by ring.
  apply (core_9999 M1 M2 (n * A1) (K * A1) A1 s); try done; nia.
Qed.

(** ** Percentile indices *)

Lemma intIndex_small n p :
  2 ≤ n → 50 ≤ p ≤ 100 → n * p < 2 ^ 32 →
  intIndex n p = n * p / 100 - 1 ∧ 0 ≤ n * p / 100 - 1 < n - 1 + 1.
Proof.
  intros Hn Hp Hb. unfold intIndex.
  assert (1 ≤ n * p / 100) by (apply Z.div_le_lower_bound; nia).
  assert (n * p / 100 ≤ n) by (apply Z.div_le_upper_bound; nia).
  assert (n < 2 ^ 32) by nia.
  rewrite (wrap32_small (n * p)) by nia.
  rewrite wrap32_small by lia. lia.
Qed.

Lemma floor_index_range n num den :
  2 ≤ n → 0 < den → den ≤ 2 * num → num ≤ den →
  0 ≤ n * num / den - 1 < n.
Proof.
  intros Hn Hden H1 H2.
  assert (1 ≤ n * num / den) by (apply Z.div_le_lower_bound; nia).
  assert (n * num / den ≤ n) by (apply Z.div_le_upper_bound; nia).
  lia.
Qed.

Lemma sortSliceStable_length s : length (sortSliceStable s) = length s.
Proof. unfold sortSliceStable. by rewrite merge_sort_Permutation. Qed.

Lemma rttCountEff_range rttCount :
  1 ≤ rttCount → 2 ≤ rttCountEff rttCount ∧
  (rttCount = 1 ∧ rttCountEff rttCount = 2 ∨ 2 ≤ rttCount ∧ rttCountEff rttCount = rttCount).
Proof.
  intros Hr. unfold rttCountEff. destruct (Z.eqb_spec rttCount 1); lia.
Qed.

(** Every index the handler uses, for a batch that does not overflow the
    [uint32] products. *)
Lemma latencyLoop_report `{Names} conn test t w rttCount nums samples rest :
  heap w !! test = Some t →
  1 ≤ rttCount → rttCountEff rttCount * 99 < 2 ^ 32 →
  Z.of_nat (length samples) = rttCount →
  Z.of_nat (length nums) = rttCount →
  let n := rttCountEff rttCount in
  let sorted := sortSliceStable samples in
  ∃ w' r,
    latencyLoop conn test rttCount nums ((true, RttOk <$> samples) :: rest) w =
      latencyLoop conn test rttCount sorted rest w' ∧
    lastReport w' = Some r ∧
    sorted !! 0%nat = Some (min r) ∧
    sorted !! Z.to_nat (rttCount - 1) = Some (max r) ∧
    sorted !! Z.to_nat (n * 50 / 100 - 1) = Some (p50 r) ∧
    sorted !! Z.to_nat (n * 90 / 100 - 1) = Some (p90 r) ∧
    sorted !! Z.to_nat (n * 95 / 100 - 1) = Some (p95 r) ∧
    sorted !! Z.to_nat (n * 99 / 100 - 1) = Some (p99 r) ∧
    sorted !! Z.to_nat (n * 999 / 1000 - 1) = Some (p999 r) ∧
    sorted !! Z.to_nat (n * 9999 / 10000 - 1) = Some (p9999 r).
Proof.
  intros Ht Hr Hov Hs Hn n sorted.
  destruct (rttCountEff_range rttCount Hr) as [Hn2 Hcases]. fold n in Hn2, Hcases, Hov.
  destruct (latencyLoop_batch conn test rttCount nums samples rest w)
    as (w1 & -> & Hh & _); [lia|done..|].
  assert (Ht1 : heap w1 !! test = Some t) by by rewrite Hh.
  assert (Hlen : Z.of_nat (length sorted) = rttCount)
    by (unfold sorted; by rewrite sortSliceStable_length).
  assert (Hget : ∀ i, 0 ≤ i < rttCount → ∃ x, sorted !! Z.to_nat i = Some x).
  { intros i Hi. apply lookup_lt_is_Some. lia. }
  assert (Hin : ∀ num den, 0 < den → den ≤ 2 * num → num < den →
                0 ≤ n * num / den - 1 < rttCount).
  { intros num den H1 H2 H3.
    destruct Hcases as [[-> Hn1]|[Hr2 Hnr]].
    - rewrite Hn1. split.
      + apply Z.le_0_sub, Z.div_le_lower_bound; lia.
      + assert (2 * num / den < 2); [|lia]. apply Z.div_lt_upper_bound; lia.
    - rewrite Hnr. apply floor_index_range; lia. }
  destruct (Hget 0 ltac:(lia)) as [vmin Hmin].
  destruct (Hget (rttCount - 1) ltac:(lia)) as [vmax Hmax].
  destruct (Hget _ (Hin 50 100 ltac:(lia) ltac:(lia) ltac:(lia))) as [v50 H50].
  destruct (Hget _ (Hin 90 100 ltac:(lia) ltac:(lia) ltac:(lia))) as [v90 H90].
  destruct (Hget _ (Hin 95 100 ltac:(lia) ltac:(lia) ltac:(lia))) as [v95 H95].
  destruct (Hget _ (Hin 99 100 ltac:(lia) ltac:(lia) ltac:(lia))) as [v99 H99].
  destruct (Hget _ (Hin 999 1000 ltac:(lia) ltac:(lia) ltac:(lia))) as [v999 H999].
  destruct (Hget _ (Hin 9999 10000 ltac:(lia) ltac:(lia) ltac:(lia))) as [v9999 H9999].
  mrun.
  rewrite (latencyStats_report test t rttCount samples w1
             vmin vmax v50 v90 v95 v99 v999 v9999 Ht1); fold n; fold sorted.
  - eexists _, _. split; [reflexivity|]. rewrite lastReport_emit.
    split; [reflexivity|]. cbn [min max p50 p90 p95 p99 p999 p9999].
    change (Z.to_nat 0) with 0%nat in Hmin. done.
  - lia.
  - done.
  - by rewrite wrap32_small by lia.
  - by rewrite (proj1 (intIndex_small n 50 ltac:(lia) ltac:(lia) ltac:(lia))).
  - by rewrite (proj1 (intIndex_small n 90 ltac:(lia) ltac:(lia) ltac:(lia))).
  - by rewrite (proj1 (intIndex_small n 95 ltac:(lia) ltac:(lia) ltac:(lia))).
  - by rewrite (proj1 (intIndex_small n 99 ltac:(lia) ltac:(lia) ltac:(lia))).
  - by rewrite floatIndex_99_9 by lia.
  - by rewrite floatIndex_99_99 by lia.
Qed.

(** C3, amended: for a batch whose [uint32] products do not overflow, each of
    the six percentiles is the sorted sample at index
    [floor(rttCountEff * p / 100) - 1], with [rttCountEff = 2] for
    [rttCount = 1]. *)
Theorem latency_percentile_is_floor_index `{Names} conn test t w rttCount nums samples rest :
  heap w !! test = Some t →
  1 ≤ rttCount → rttCountEff rttCount * 99 < 2 ^ 32 →
  Z.of_nat (length samples) = rttCount →
  Z.of_nat (length nums) = rttCount →
  let n := rttCountEff rttCount in
  let sorted := sortSliceStable samples in
  Sorted Z.le sorted ∧ sorted ≡ₚ samples ∧
  ∃ w' r,
    latencyLoop conn test rttCount nums ((true, RttOk <$> samples) :: rest) w =
      latencyLoop conn test rttCount sorted rest w' ∧
    lastReport w' = Some r ∧
    sorted !! Z.to_nat (n * 50 / 100 - 1) = Some (p50 r) ∧
    sorted !! Z.to_nat (n * 90 / 100 - 1) = Some (p90 r) ∧
    sorted !! Z.to_nat (n * 95 / 100 - 1) = Some (p95 r) ∧
    sorted !! Z.to_nat (n * 99 / 100 - 1) = Some (p99 r) ∧
    sorted !! Z.to_nat (n * 999 / 1000 - 1) = Some (p999 r) ∧
    sorted !! Z.to_nat (n * 9999 / 10000 - 1) = Some (p9999 r).
Proof.
  intros Ht Hr Hov Hs Hn n sorted.
  split; [apply Sorted_merge_sort; apply _|].
  split; [apply merge_sort_Permutation|].
  destruct (latencyLoop_report conn test t w rttCount nums samples rest Ht Hr Hov Hs Hn)
    as (w' & r & Hrun & Hrep & _ & _ & Hrest).
  exists w', r. done.
Qed.

Lemma Sorted_le_lookup (s : list Z) i j x y :
  Sorted Z.le s → (i ≤ j)%nat → s !! i = Some x → s !! j = Some y → x ≤ y.
Proof.
  intros Hs. apply Sorted_StronglySorted in Hs; [|apply _].
  revert i j. induction Hs as [|a l Hl IH Hall]; intros i j Hij Hx Hy; [done|].
  destruct i as [|i], j as [|j]; cbn in *; simplify_eq; try lia.
  - rewrite Forall_forall in Hall. apply Hall. by eapply list_elem_of_lookup_2.
  - eapply IH; [|done..]. lia.
Qed.

(** Within the range where the [uint32] products do not overflow, the six
    percentiles are in order. *)
Lemma latency_percentiles_monotone_in_range `{Names}
    conn test t w rttCount nums samples rest :
  heap w !! test = Some t →
  1 ≤ rttCount → rttCountEff rttCount * 99 < 2 ^ 32 →
  Z.of_nat (length samples) = rttCount →
  Z.of_nat (length nums) = rttCount →
  ∃ w' r,
    latencyLoop conn test rttCount nums ((true, RttOk <$> samples) :: rest) w =
      latencyLoop conn test rttCount (sortSliceStable samples) rest w' ∧
    lastReport w' = Some r ∧
    min r ≤ p50 r ∧ p50 r ≤ p90 r ∧ p90 r ≤ p95 r ∧ p95 r ≤ p99 r ∧
    p99 r ≤ p999 r ∧ p999 r ≤ p9999 r ∧ p9999 r ≤ max r.
Proof.
  intros Ht Hr Hov Hs Hn.
  destruct (latencyLoop_report conn test t w rttCount nums samples rest Ht Hr Hov Hs Hn)
    as (w' & r & Hrun & Hrep & Hmin & Hmax & H50 & H90 & H95 & H99 & H999 & H9999).
  exists w', r. split; [done|]. split; [done|].
  assert (Hsorted : Sorted Z.le (sortSliceStable samples))
    by (apply Sorted_merge_sort; apply _).
  destruct (rttCountEff_range rttCount Hr) as [Hn2 Hcases].
  set (n := rttCountEff rttCount) in *.
  assert (Hmono : ∀ a b c d, 0 < b → 0 < d → a * d ≤ c * b →
                  n * a / b - 1 ≤ n * c / d - 1).
  { intros a b c d Hb Hd Hle. apply Z.sub_le_mono_r.
    apply Z.div_le_lower_bound; [lia|].
    pose proof (Z.mul_div_le (n * a) b Hb).
    assert (b * (d * (n * a / b)) ≤ b * (n * c)); [|nia]. nia. }
  assert (H0 : 0 ≤ n * 50 / 100 - 1)
    by (apply Z.le_0_sub, Z.div_le_lower_bound; lia).
  assert (Htop : n * 9999 / 10000 - 1 ≤ rttCount - 1).
  { destruct Hcases as [[-> Hn1]|[Hr2 Hnr]]; rewrite ?Hn1, ?Hnr.
    - vm_compute. discriminate.
    - apply Z.sub_le_mono_r, Z.div_le_upper_bound; lia. }
  pose proof (Hmono 50 100 90 100 ltac:(lia) ltac:(lia) ltac:(lia)).
  pose proof (Hmono 90 100 95 100 ltac:(lia) ltac:(lia) ltac:(lia)).
  pose proof (Hmono 95 100 99 100 ltac:(lia) ltac:(lia) ltac:(lia)).
  pose proof (Hmono 99 100 999 1000 ltac:(lia) ltac:(lia) ltac:(lia)).
  pose proof (Hmono 999 1000 9999 10000 ltac:(lia) ltac:(lia) ltac:(lia)).
  split_and!; eapply (Sorted_le_lookup (sortSliceStable samples));
    try eassumption; lia.
Qed.

(** ** The theorems at sample inputs *)

Lemma handleRequest_duplicate_rejected_witness :
  let p := sampleParam Tcp Latency 1000 in
  let w := sampleWorld Tcp Latency 1000 in
  firstMsg (sampleScript p) = EthrSyn p ∧
  gSessions w !! keyOf (remoteHost (sampleConn 1)) p = Some 1%positive ∧
  ∃ w' reason,
    handleRequest (H:=sampleNames) (sampleConn 1) (sampleScript p) w = Done tt w' ∧
    EvSend (sampleConn 1) (EthrFin reason) true ∈ trace w' ∧
    gSessions w' = gSessions w ∧ heap w' = heap w.
Proof.
  intros p w. split; [reflexivity|]. split; [vm_compute; reflexivity|].
  destruct (handleRequest_duplicate_rejected (H:=sampleNames) (sampleConn 1)
              (sampleScript p) p w 1%positive)
    as (w' & reason & detail & pre & Hrun & Htr & _ & _ & _ & Hg & Hh);
    [reflexivity|vm_compute; reflexivity|].
  exists w', reason. split; [exact Hrun|]. rewrite Htr.
  split; [|split; [exact Hg|exact Hh]].
  apply elem_of_app. right. apply elem_of_app. right. apply list_elem_of_here.
Defined.

Lemma handleRequest_handshake_cleanup_witness :
  let p := sampleParam Udp Pps 0 in
  firstMsg (sampleScript p) = EthrSyn p ∧
  gSessions emptyWorld !! keyOf (remoteHost (sampleConn 1)) p = None ∧
  ∃ w' r,
    handleRequest (H:=sampleNames) (sampleConn 1) (sampleScript p) emptyWorld =
      Done tt w' ∧
    gSessions w' = ∅ ∧ heap w' = {[ 1%positive := r ]} ∧ done r = true ∧
    connId (sampleConn 1) ∈ closed w'.
Proof.
  intros p. split; [reflexivity|]. split; [reflexivity|].
  destruct (handleRequest_handshake_cleanup (H:=sampleNames) (sampleConn 1)
              (sampleScript p) p emptyWorld)
    as (w' & tr & r & Hrun & _ & _ & Hh & _ & Hc & _ & Hd & _ & Hg & _);
    [reflexivity|reflexivity|].
  exists w', r. split; [exact Hrun|]. split; [exact Hg|]. split; [exact Hh|].
  split; [exact Hd|exact Hc].
Defined.

Lemma latency_percentile_is_floor_index_witness :
  let samples := [70; 10; 100; 30; 20; 90; 50; 40; 80; 60] in
  let w := sampleWorld Tcp Latency 10 in
  heap w !! 1%positive = Some (sampleTest Tcp Latency 10) ∧
  1 ≤ 10 ∧ rttCountEff 10 * 99 < 2 ^ 32 ∧
  Z.of_nat (length samples) = 10 ∧
  Z.of_nat (length (replicate 10 0)) = 10 ∧
  ∃ w' r,
    latencyLoop (H:=sampleNames) (sampleConn 1) 1%positive 10 (replicate 10 0)
      [(true, RttOk <$> samples)] w = Done Running w' ∧
    lastReport w' = Some r ∧
    sortSliceStable samples !! Z.to_nat (10 * 95 / 100 - 1) = Some (p95 r) ∧
    sortSliceStable samples !! Z.to_nat (10 * 999 / 1000 - 1) = Some (p999 r).
Proof.
  intros samples w.
  split; [reflexivity|]. split; [lia|]. split; [reflexivity|].
  split; [reflexivity|]. split; [reflexivity|].
  destruct (latency_percentile_is_floor_index (H:=sampleNames) (sampleConn 1)
              1%positive (sampleTest Tcp Latency 10) w 10 (replicate 10 0) samples [])
    as (_ & _ & w' & r & Hrun & Hrep & _ & _ & H95 & _ & H999 & _);
    [reflexivity|lia|reflexivity|reflexivity|reflexivity|].
  exists w', r. split; [exact Hrun|]. split; [exact Hrep|]. split; [exact H95|exact H999].
Defined.

Lemma latency_single_sample_witness :
  let w := sampleWorld Tcp Latency 1 in
  heap w !! 1%positive = Some (sampleTest Tcp Latency 1) ∧
  length [0] = 1%nat ∧
  ∃ w',
    latencyLoop (H:=sampleNames) (sampleConn 1) 1%positive 1 [0]
      [(true, [RttOk 250000])] w = Done Running w' ∧
    lastReport w' =
      Some {| avg := 250000; min := 250000; max := 250000; p50 := 250000;
              p90 := 250000; p95 := 250000; p99 := 250000; p999 := 250000;
              p9999 := 250000 |}.
Proof.
  intros w. split; [reflexivity|]. split; [reflexivity|].
  destruct (latency_single_sample (H:=sampleNames) (sampleConn 1) 1%positive
              (sampleTest Tcp Latency 1) w [0] 250000 [])
    as (w' & Hrun & Hrep); [reflexivity|reflexivity|].
  exists w'. split; [exact Hrun|exact Hrep].
Defined.

Lemma latency_counter_is_batch_mean_witness :
  let samples := [100; 200; 300; 401] in
  let w := sampleWorld Tcp Latency 4 in
  heap w !! 1%positive = Some (sampleTest Tcp Latency 4) ∧
  1 ≤ 4 < 2 ^ 32 ∧
  Z.of_nat (length samples) = 4 ∧
  Z.of_nat (length (replicate 4 0)) = 4 ∧
  Forall (fun d => 0 ≤ d) samples ∧
  total samples < 2 ^ 63 ∧
  counterOf 1%positive
    (finalWorld (latencyLoop (H:=sampleNames) (sampleConn 1) 1%positive 4
                   (replicate 4 0) [(true, RttOk <$> samples)] w)) = Some 250.
Proof.
  intros samples w.
  assert (Hpos : Forall (fun d => 0 ≤ d) samples) by (repeat constructor; lia).
  split; [reflexivity|]. split; [lia|]. split; [reflexivity|]. split; [reflexivity|].
  split; [exact Hpos|]. split; [reflexivity|].
  exact (latency_counter_is_batch_mean (H:=sampleNames) (sampleConn 1) 1%positive
           (sampleTest Tcp Latency 4) w 4 (replicate 4 0) samples
           eq_refl (conj (Zle_bool_imp_le 1 4 eq_refl) eq_refl) eq_refl eq_refl Hpos eq_refl).
Defined.

Lemma runLatencyHandler_needs_rttCount_witness :
  let w := sampleWorld Tcp Latency 0 in
  heap w !! 1%positive = Some (sampleTest Tcp Latency 0) ∧
  0 ≤ RttCount (testParam (sampleTest Tcp Latency 0)) ∧
  ∃ w', runLatencyHandler (H:=sampleNames) (sampleConn 1) 1%positive [(true, [])] w =
          Panicked DivideByZero w'.
Proof.
  intros w. split; [reflexivity|]. split; [simpl; lia|].
  destruct (runLatencyHandler_needs_rttCount (H:=sampleNames) (sampleConn 1) 1%positive
              (sampleTest Tcp Latency 0) w [] []) as [Hzero _];
    [reflexivity|simpl; lia|].
  destruct (Hzero eq_refl) as [Hpanic _]. exact Hpanic.
Defined.
